(** * videojitter: the recording analyzer

    A shallow embedding of [analyze-recording.py]: the pipeline that turns a
    recorded light waveform into timestamped, polarity-classified frame
    transitions.

    Number model.  The script computes with Python and numpy floats.  The
    pipeline is embedded over exact rationals ([Q]): it follows the
    arithmetic the script is written in, without IEEE-754 rounding, NaN or
    infinity.  Where numpy would produce an infinity (a division by zero)
    this embedding stops with [NonFinite].  Its theorems are about
    structure, order and control flow, which rounding leaves alone.

    Where rounding or NaN decides the question, the lines concerned are
    embedded a second time over IEEE-754 double precision, in the module
    [binary64]: the downsampling ratio of lines 221-224 and the candidate
    mask of lines 256-267.  That module takes its arithmetic from the
    reference implementation of binary64 in [SpecFloat] (round to nearest,
    ties to even).

    Library model.  [scipy], [pandas] and [videojitter.util] are not part
    of the script.  The signal-processing routines whose numeric output no
    statement below depends on ([resample_poly], [correlate], [firwin],
    ...) are fields of a record [Library]; every theorem holds for all
    libraries.  [find_peaks] is embedded as far as the statements need it:
    the local-maxima scan and the height test are written out, the
    by-distance elimination and the prominence evaluation are library
    fields, which only ever compute a mask or a property per peak.

    Control model.  A run is the list of events it emits (diagnostics,
    debug artifacts, the table) and a value or an uncaught exception.
    [analyze_recording] is one long function; it is embedded block by
    block, each block naming the lines it covers, and cut at its two
    [assert]s on the detection results.  Debug artifacts are written to
    files of their own, and writing them is taken to succeed. *)

From Stdlib Require Import List Bool Arith ZArith QArith Qround Qabs.
From Stdlib Require Import Lia Lqa Sorted.
From Stdlib Require Import SpecFloat.
Import ListNotations.

Close Scope Q_scope.

(** ** The Python runtime: exceptions, output channels, the run monad *)

Inductive Exception : Type :=
| AssertionError
| ValueError
| ZeroDivisionError
| IndexError
| NonFinite.

(** The debug artifacts of [parse_arguments], one per [--output-*-file]. *)
Inductive DebugFile : Type :=
| downsampled_slope_file
| boundaries_signal_file
| cross_correlation_file
| boundary_candidates_file
| trimmed_slope_file
| upsampled_slope_file
| edges_file.

(** The keyword arguments handed to [find_edges]. *)
Record FindEdgeParams : Type := {
  minimum_negative_height : Q;
  minimum_positive_height : Q;
  minimum_falling_edge_distance : Z;
  minimum_rising_edge_distance : Z;
  minimum_negative_prominence : Q;
  minimum_positive_prominence : Q
}.

(** What a run prints to [sys.stderr]: the script's own messages, with the
    values reported, and numpy's [RuntimeWarning: invalid value encountered
    in divide]. *)
Inductive Diagnostic : Type :=
| LoadedSpec (frames : nat) (nominal_fps seconds : Q)
| LoadedRecording (samples : nat) (sample_rate : Z) (seconds : Q)
| Downsampling (ratio rate : Q)
| TestSignalBounds (start stop : nat)
| Upsampling (ratio rate : Q)
| SlopeRange (slope_min slope_max : Q)
| FindingEdges (params : FindEdgeParams)
| DetectedEdges (count : nat)
| WarningSamePolarity (first_edge : bool)
| DeducedPolarity (first_edge last_edge : bool)
| InvalidValueInDivide.

Inductive Event : Type :=
| Stderr (d : Diagnostic)
| WavFile (file : DebugFile) (rate : Z) (samples : list Q) (normalize : bool)
| Stdout (rows : list (Q * bool)).

(** A run emits events in order and ends in a value or an uncaught
    exception. *)
Definition Run (A : Type) : Type := (list Event * (Exception + A))%type.

Definition ret {A} (a : A) : Run A := ([], inr a).

Definition raise {A} (e : Exception) : Run A := ([], inl e).

Definition bind {A B} (m : Run A) (f : A -> Run B) : Run B :=
  match m with
  | (out, inl e) => (out, inl e)
  | (out, inr a) => let (out', r) := f a in (out ++ out', r)
  end.

Definition emit (e : Event) : Run unit := ([e], inr tt).

Definition print (d : Diagnostic) : Run unit := emit (Stderr d).

(** [assert c]. *)
Definition assert (c : bool) : Run unit :=
  if c then ret tt else raise AssertionError.

(** A call into a library routine, which returns or raises. *)
Definition call {A} (r : Exception + A) : Run A := ([], r).

Declare Scope run_scope.
Delimit Scope run_scope with run.
Notation "x <- m ;; k" := (bind m (fun x => k))
  (at level 61, m at next level, right associativity) : run_scope.
Notation "m ;;; k" := (bind m (fun _ => k))
  (at level 61, right associativity) : run_scope.

(** The trace and the outcome of a run; the process exit status. *)
Definition trace {A} (r : Run A) : list Event := fst r.
Definition outcome {A} (r : Run A) : Exception + A := snd r.

Definition exit_status {A} (r : Run A) : Z :=
  match outcome r with
  | inl _ => 1%Z
  | inr _ => 0%Z
  end.

(** The rows written to the primary output channel. *)
Fixpoint stdout_rows (t : list Event) : list (Q * bool) :=
  match t with
  | [] => []
  | Stdout rows :: t' => rows ++ stdout_rows t'
  | _ :: t' => stdout_rows t'
  end.

Fixpoint stderr_lines (t : list Event) : list Diagnostic :=
  match t with
  | [] => []
  | Stderr d :: t' => d :: stderr_lines t'
  | _ :: t' => stderr_lines t'
  end.

(** ** numpy *)

Module np.

Definition of_nat (n : nat) : Q := inject_Z (Z.of_nat n).

(** [a < b] on floats. *)
Definition ltb (a b : Q) : bool := negb (Qle_bool b a).

(** [np.floor] and [np.ceil] keep the float type. *)
Definition floor (x : Q) : Q := inject_Z (Qfloor x).
Definition ceil (x : Q) : Q := inject_Z (Qceiling x).

(** [int(x)]: truncation toward zero. *)
Definition int (x : Q) : Z :=
  if Qle_bool 0 x then Qfloor x else Qceiling x.

(** Python's [a / b] on its own numbers. *)
Definition py_div (a b : Q) : Run Q :=
  if Qeq_bool b 0 then raise ZeroDivisionError else ret (a / b)%Q.

(** numpy's [a / b]: a zero divisor gives an infinity or a NaN, which the
    rational model does not have. *)
Definition true_divide (a b : Q) : Run Q :=
  if Qeq_bool b 0 then raise NonFinite else ret (a / b)%Q.

Definition Qmaxb (a b : Q) : Q := if Qle_bool a b then b else a.
Definition Qminb (a b : Q) : Q := if Qle_bool a b then a else b.

(** [np.max] and [np.min]; an empty array has no maximum. *)
Definition max (x : list Q) : Run Q :=
  match x with
  | [] => raise ValueError
  | a :: x' => ret (fold_left Qmaxb x' a)
  end.

Definition min (x : list Q) : Run Q :=
  match x with
  | [] => raise ValueError
  | a :: x' => ret (fold_left Qminb x' a)
  end.

Definition abs (x : list Q) : list Q := map Qabs x.

Definition negative (x : list Q) : list Q := map Qopp x.

(** [x[i]] for an index inside the array. *)
Definition item (x : list Q) (i : nat) : Q := nth i x 0%Q.

(** [np.nonzero(mask)[0]]: the positions of the true entries, ascending. *)
Fixpoint nonzero_from (i : nat) (mask : list bool) : list nat :=
  match mask with
  | [] => []
  | b :: mask' =>
      if b then i :: nonzero_from (S i) mask' else nonzero_from (S i) mask'
  end.

Definition nonzero (mask : list bool) : list nat := nonzero_from 0 mask.

(** [a[keep]] for a boolean mask [keep]. *)
Fixpoint select {A} (keep : list bool) (a : list A) : list A :=
  match keep, a with
  | k :: keep', v :: a' =>
      if k then v :: select keep' a' else select keep' a'
  | _, _ => []
  end.

(** [a[start:stop]] for non-negative bounds. *)
Definition slice {A} (a : list A) (start stop : nat) : list A :=
  skipn start (firstn stop a).

(** [np.tile([False, True], reps)]. *)
Fixpoint tile_false_true (reps : nat) : list bool :=
  match reps with
  | O => []
  | S reps' => false :: true :: tile_false_true reps'
  end.

End np.

(** ** pandas: a boolean Series with its index *)

Module pd.

(** A Series is its rows in order: the index label and the value. *)
Definition Series (I : Type) : Type := list (I * bool).

(** [pd.Series(values, index=index)]. *)
Definition make {I} (values : list bool) (index : list I) : Series I :=
  combine index values.

Definition index {I} (s : Series I) : list I := map fst s.
Definition values {I} (s : Series I) : list bool := map snd s.

(** [s.sort_index()] on an integer index: ascending by label. *)
Fixpoint insert_row (e : nat * bool) (s : Series nat) : Series nat :=
  match s with
  | [] => [e]
  | e' :: s' =>
      if fst e <=? fst e' then e :: e' :: s' else e' :: insert_row e s'
  end.

Fixpoint sort_index (s : Series nat) : Series nat :=
  match s with
  | [] => []
  | e :: s' => insert_row e (sort_index s')
  end.

(** [s.iloc[0]] and [s.iloc[-1]]. *)
Definition iloc_first {I} (s : Series I) : Run bool :=
  match s with
  | [] => raise IndexError
  | e :: _ => ret (snd e)
  end.

Definition iloc_last {I} (s : Series I) : Run bool :=
  match rev s with
  | [] => raise IndexError
  | e :: _ => ret (snd e)
  end.

(** [~s]: every value negated, the index kept. *)
Definition invert {I} (s : Series I) : Series I :=
  map (fun e => (fst e, negb (snd e))) s.

End pd.

(** ** The libraries the script calls *)

Record Library : Type := {
  (* videojitter.util *)
  generate_frames : Z -> list Z -> Exception + list bool;
  generate_fake_samples : list bool -> Z -> Z -> Q -> Exception + list Q;
  (* scipy.signal *)
  firwin : Z -> Q -> Exception + list Q;
  convolve : list Q -> list Q -> Exception + list Q;
  resample_poly : list Q -> Q -> Q -> option (list Q) -> Exception + list Q;
  correlate_valid : list Q -> list Q -> Exception + list Q;
  (* scipy.signal._peak_finding_utils *)
  select_by_peak_distance : list nat -> list Q -> Z -> list bool;
  peak_prominences : list Q -> list nat -> list Q
}.

(** ** scipy.signal.find_peaks *)

Module scipy.

(** The inner loop of [_local_maxima_1d]:
    [while i_ahead < i_max and x[i_ahead] == x[i]: i_ahead += 1]. *)
Fixpoint look_ahead (x : list Q) (i i_max : nat) (fuel i_ahead : nat) : nat :=
  match fuel with
  | O => i_ahead
  | S fuel' =>
      if (i_ahead <? i_max) && Qeq_bool (np.item x i_ahead) (np.item x i)
      then look_ahead x i i_max fuel' (S i_ahead)
      else i_ahead
  end.

(** The outer loop of [_local_maxima_1d], [while i < i_max], collecting
    the midpoints of the plateaus found. *)
Fixpoint scan (x : list Q) (i_max : nat) (fuel i : nat) : list nat :=
  match fuel with
  | O => []
  | S fuel' =>
      if i <? i_max then
        if np.ltb (np.item x (i - 1)) (np.item x i) then
          let i_ahead := look_ahead x i i_max (i_max - (i + 1)) (i + 1) in
          if np.ltb (np.item x i_ahead) (np.item x i) then
            let left_edge := i in
            let right_edge := i_ahead - 1 in
            (left_edge + right_edge) / 2 :: scan x i_max fuel' (i_ahead + 1)
          else scan x i_max fuel' (i + 1)
        else scan x i_max fuel' (i + 1)
      else []
  end.

(** [_local_maxima_1d(x)[0]]: the first sample and the last one are never
    maxima. *)
Definition local_maxima_1d (x : list Q) : list nat :=
  scan x (length x - 1) (length x) 1.

(** [_select_by_property(peak_properties, pmin, None)]. *)
Definition select_by_property (peak_properties : list Q) (pmin : Q)
  : list bool :=
  map (fun p => Qle_bool pmin p) peak_properties.

(** [find_peaks(x, height=, distance=, prominence=)[0]]. *)
Definition find_peaks (L : Library) (x : list Q)
    (height : Q) (distance : Z) (prominence : Q) : Exception + list nat :=
  if (distance <? 1)%Z then inl ValueError
  else
    let peaks := local_maxima_1d x in
    let peak_heights := map (np.item x) peaks in
    let peaks := np.select (select_by_property peak_heights height) peaks in
    let keep :=
      select_by_peak_distance L peaks (map (np.item x) peaks) distance in
    let peaks := np.select keep peaks in
    let prominences := peak_prominences L x peaks in
    let peaks :=
      np.select (select_by_property prominences prominence) peaks in
    inr peaks.

End scipy.

(** ** The script *)

Local Open Scope run_scope.

(** [find_edges]: falling edges are the peaks of the negated slope, rising
    edges the peaks of the slope; one Series, sorted by offset. *)
Definition find_edges (L : Library) (slope : list Q) (p : FindEdgeParams)
  : Run (pd.Series nat) :=
  falling_edge_indexes <-
    call (scipy.find_peaks L (np.negative slope)
            (minimum_negative_height p)
            (minimum_falling_edge_distance p)
            (minimum_negative_prominence p)) ;;
  rising_edge_indexes <-
    call (scipy.find_peaks L slope
            (minimum_positive_height p)
            (minimum_rising_edge_distance p)
            (minimum_positive_prominence p)) ;;
  ret (pd.sort_index
         (pd.make
            (repeat false (length falling_edge_indexes)
               ++ repeat true (length rising_edge_indexes))
            (falling_edge_indexes ++ rising_edge_indexes))).

(** The command line ([parse_arguments]), the spec file and the recording,
    as loaded. *)
Record Args : Type := {
  min_edge_separation_seconds : Q;
  boundaries_signal_frames : Z;
  boundaries_score_threshold_ratio : Q;
  timestamp_resolution_seconds : Q;
  minimum_negative_slope_peak_height_ratio : Q;
  minimum_positive_slope_peak_height_ratio : Q;
  minimum_negative_slope_peak_prominence_ratio : Q;
  minimum_positive_slope_peak_prominence_ratio : Q;
  output_file : DebugFile -> bool
}.

Record Spec : Type := {
  fps_num : Z;
  fps_den : Z;
  transition_count : Z;
  delayed_transitions : list Z
}.

Record Recording : Type := {
  wav_sample_rate : Z;
  wav_samples : list Q
}.

(** [generate_boundaries_reference_samples]. *)
Definition generate_boundaries_reference_samples (L : Library)
    (frame_count fps_num fps_den : Z) (sample_rate : Q) : Run (list Q) :=
  let reps := np.int (np.ceil (inject_Z frame_count / 2)%Q) in
  if (reps <? 0)%Z then raise ValueError
  else
    call (generate_fake_samples L
            (firstn (Z.to_nat frame_count)
               (np.tile_false_true (Z.to_nat reps)))
            fps_num fps_den sample_rate).

(** [generate_downsampling_derivative_kernel]. *)
Definition generate_downsampling_derivative_kernel (L : Library)
    (downsampling_ratio : Q) : Run (list Q) :=
  cutoff <- np.true_divide 1 downsampling_ratio ;;
  taps <- call (firwin L (2 * np.int (2 * 10 * downsampling_ratio)%Q + 1)%Z
                  cutoff) ;;
  call (convolve L taps [1; -1]%Q).

(** [maybe_write_wavfile], with the sample rate it reads from the enclosing
    function at the time of the call.  Normalizing divides the samples by
    their greatest magnitude: [np.max] raises on an empty array, and on an
    array that is zero throughout the division is 0 / 0, for which numpy
    prints its warning and goes on.  The event keeps the samples as passed
    and whether they are normalized on the way out. *)
Definition maybe_write_wavfile (args : Args) (recording_sample_rate : Q)
    (file : DebugFile) (samples : list Q) (normalize : bool) : Run unit :=
  if negb (output_file args file) then ret tt
  else
    (if normalize then
       peak <- np.max (np.abs samples) ;;
       if Qeq_bool peak 0 then print InvalidValueInDivide else ret tt
     else ret tt) ;;;
    emit (WavFile file (np.int recording_sample_rate) samples normalize).

(** Lines 180-202: the checks and messages before any processing. *)
Definition load_inputs (L : Library) (args : Args) (spec : Spec)
    (recording : Recording) : Run unit :=
  assert (negb (boundaries_signal_frames args mod 2 =? 0)%Z) ;;;
  nominal_fps <- np.py_div (inject_Z (fps_num spec)) (inject_Z (fps_den spec)) ;;
  frames <- call (generate_frames L (transition_count spec)
                    (delayed_transitions spec)) ;;
  reference_duration_seconds <-
    np.py_div (np.of_nat (length frames)) nominal_fps ;;
  print (LoadedSpec (length frames) nominal_fps reference_duration_seconds) ;;;
  recording_duration_seconds <-
    np.py_div (np.of_nat (length (wav_samples recording)))
      (inject_Z (wav_sample_rate recording)) ;;
  print (LoadedRecording (length (wav_samples recording))
           (wav_sample_rate recording) recording_duration_seconds).

(** Lines 221-224: the downsampling ratio and the sample rate after it. *)
Definition downsampling (args : Args) (recording_sample_rate : Q)
  : Run (Q * Q) :=
  edge_rate <- np.py_div 1 (min_edge_separation_seconds args) ;;
  quotient <- np.py_div recording_sample_rate edge_rate ;;
  let downsampling_ratio := np.floor quotient in
  recording_sample_rate <-
    np.true_divide recording_sample_rate downsampling_ratio ;;
  ret (downsampling_ratio, recording_sample_rate).

(** Lines 221-235: the downsampled slope. *)
Definition downsample (L : Library) (args : Args) (recording : Recording)
  : Run (Q * list Q) :=
  dr <- downsampling args (inject_Z (wav_sample_rate recording)) ;;
  let (downsampling_ratio, recording_sample_rate) := dr in
  print (Downsampling downsampling_ratio recording_sample_rate) ;;;
  window <- generate_downsampling_derivative_kernel L downsampling_ratio ;;
  recording_slope <-
    call (resample_poly L (wav_samples recording) 1 downsampling_ratio
            (Some window)) ;;
  maybe_write_wavfile args recording_sample_rate downsampled_slope_file
    recording_slope false ;;;
  ret (recording_sample_rate, recording_slope).

(** Lines 256-260: the candidate mask over the cross-correlation. *)
Definition boundary_candidates (threshold_ratio : Q)
    (cross_correlation : list Q) : Run (list bool) :=
  let abs_cross_correlation := np.abs cross_correlation in
  peak <- np.max abs_cross_correlation ;;
  ret (map (fun v => Qle_bool (peak * threshold_ratio)%Q v)
         abs_cross_correlation).

(** Lines 237-254: the reference signal and the cross-correlation. *)
Definition correlate_boundaries (L : Library) (args : Args) (spec : Spec)
    (recording_sample_rate : Q) (recording_slope : list Q)
  : Run (list Q * list Q) :=
  boundaries_reference_samples <-
    generate_boundaries_reference_samples L (boundaries_signal_frames args)
      (fps_num spec) (fps_den spec) recording_sample_rate ;;
  maybe_write_wavfile args recording_sample_rate boundaries_signal_file
    boundaries_reference_samples false ;;;
  cross_correlation <-
    call (correlate_valid L recording_slope boundaries_reference_samples) ;;
  maybe_write_wavfile args recording_sample_rate cross_correlation_file
    cross_correlation true ;;;
  ret (boundaries_reference_samples, cross_correlation).

(** Lines 256-266: the positions of the boundary candidates. *)
Definition find_boundary_candidates (args : Args) (recording_sample_rate : Q)
    (cross_correlation : list Q) : Run (list nat) :=
  candidates <-
    boundary_candidates (boundaries_score_threshold_ratio args)
      cross_correlation ;;
  maybe_write_wavfile args recording_sample_rate boundary_candidates_file
    (map (fun b : bool => if b then 1%Q else 0%Q) candidates) false ;;;
  ret (np.nonzero candidates).

(** Lines 268-271: the bounds of the test signal. *)
Definition test_signal_bounds (boundary_candidate_indexes : list nat)
    (reference_size : nat) : nat * nat :=
  (hd 0 boundary_candidate_indexes,
   last boundary_candidate_indexes 0 + reference_size).

(** Lines 268-278: the slope trimmed to the test signal. *)
Definition trim (args : Args) (recording_sample_rate : Q)
    (recording_slope : list Q) (boundary_candidate_indexes : list nat)
    (reference_size : nat) : Run (nat * nat * list Q) :=
  let (test_signal_start_index, test_signal_end_index) :=
    test_signal_bounds boundary_candidate_indexes reference_size in
  print (TestSignalBounds test_signal_start_index test_signal_end_index) ;;;
  let recording_slope :=
    np.slice recording_slope test_signal_start_index test_signal_end_index in
  maybe_write_wavfile args recording_sample_rate trimmed_slope_file
    recording_slope false ;;;
  ret (test_signal_start_index, test_signal_end_index, recording_slope).

(** The values the upsampling step rebinds. *)
Record Upsampled : Type := {
  upsampling_ratio : Q;
  upsampled_sample_rate : Q;
  upsampled_start_index : Q;
  upsampled_end_index : Q
}.

(** Lines 280-285: the upsampling ratio, the new rate, the rescaled
    bounds. *)
Definition upsampling (args : Args) (recording_sample_rate : Q)
    (test_signal_start_index test_signal_end_index : nat) : Run Upsampled :=
  resolution_rate <- np.py_div 1 (timestamp_resolution_seconds args) ;;
  quotient <- np.true_divide resolution_rate recording_sample_rate ;;
  let upsampling_ratio := np.ceil quotient in
  ret {| upsampling_ratio := upsampling_ratio;
         upsampled_sample_rate :=
           (recording_sample_rate * upsampling_ratio)%Q;
         upsampled_start_index :=
           (np.of_nat test_signal_start_index * upsampling_ratio)%Q;
         upsampled_end_index :=
           (np.of_nat test_signal_end_index * upsampling_ratio)%Q |}.

(** Lines 280-295: the upsampled slope. *)
Definition upsample (L : Library) (args : Args) (recording_sample_rate : Q)
    (test_signal_start_index test_signal_end_index : nat)
    (recording_slope : list Q) : Run (Upsampled * list Q) :=
  u <- upsampling args recording_sample_rate test_signal_start_index
         test_signal_end_index ;;
  print (Upsampling (upsampling_ratio u) (upsampled_sample_rate u)) ;;;
  recording_slope <-
    call (resample_poly L recording_slope (upsampling_ratio u) 1 None) ;;
  maybe_write_wavfile args (upsampled_sample_rate u) upsampled_slope_file
    recording_slope false ;;;
  ret (u, recording_slope).

(** Lines 304-318: the parameters of the edge search. *)
Definition find_edge_params (args : Args) (recording_sample_rate : Q)
    (recording_slope_min recording_slope_max : Q) : FindEdgeParams :=
  let minimum_edge_distance_samples :=
    np.int (min_edge_separation_seconds args * 2 * recording_sample_rate)%Q in
  {| minimum_negative_height :=
       (- recording_slope_min
        * minimum_negative_slope_peak_height_ratio args)%Q;
     minimum_positive_height :=
       (recording_slope_max
        * minimum_positive_slope_peak_height_ratio args)%Q;
     minimum_falling_edge_distance := minimum_edge_distance_samples;
     minimum_rising_edge_distance := minimum_edge_distance_samples;
     minimum_negative_prominence :=
       (- recording_slope_min
        * minimum_negative_slope_peak_prominence_ratio args)%Q;
     minimum_positive_prominence :=
       (recording_slope_max
        * minimum_positive_slope_peak_prominence_ratio args)%Q |}.

(** Lines 297-324: the edges of the upsampled slope. *)
Definition detect_edges (L : Library) (args : Args)
    (recording_sample_rate : Q) (recording_slope : list Q)
  : Run (pd.Series nat) :=
  recording_slope_min <- np.min recording_slope ;;
  recording_slope_max <- np.max recording_slope ;;
  print (SlopeRange recording_slope_min recording_slope_max) ;;;
  let params :=
    find_edge_params args recording_sample_rate recording_slope_min
      recording_slope_max in
  print (FindingEdges params) ;;;
  edges <- find_edges L recording_slope params ;;
  print (DetectedEdges (length (pd.index edges))) ;;;
  ret edges.

(** Lines 328-329: [is_edge = np.zeros(size)] and
    [is_edge[edges.index] = edges * 2 - 1]. *)
Definition edge_markers (size : nat) (edges : pd.Series nat) : list Q :=
  map (fun i =>
         match find (fun e => fst e =? i) edges with
         | Some e => if snd e then 1%Q else (-1)%Q
         | None => 0%Q
         end)
      (seq 0 size).

(** Lines 332-345: the polarity of the edges, from the first and the last
    one. *)
Definition resolve_polarity {I} (edges : pd.Series I) : Run (pd.Series I) :=
  first_edge <- pd.iloc_first edges ;;
  last_edge <- pd.iloc_last edges ;;
  if Bool.eqb first_edge last_edge then
    print (WarningSamePolarity first_edge) ;;;
    ret edges
  else
    print (DeducedPolarity first_edge last_edge) ;;;
    ret (if negb first_edge then pd.invert edges else edges).

(** Line 347: [(edges.index + test_signal_start_index) /
    recording_sample_rate], elementwise. *)
Definition timestamps (index : list nat) (test_signal_start_index : Q)
    (recording_sample_rate : Q) : Run (list Q) :=
  match index with
  | [] => ret []
  | _ =>
      if Qeq_bool recording_sample_rate 0 then raise NonFinite
      else
        ret (map (fun offset =>
                    ((np.of_nat offset + test_signal_start_index)
                     / recording_sample_rate)%Q)
               index)
  end.

(** Lines 347-348: the table written to [sys.stdout]. *)
Definition write_output (edges : pd.Series nat) (test_signal_start_index : Q)
    (recording_sample_rate : Q) : Run unit :=
  index <-
    timestamps (pd.index edges) test_signal_start_index
      recording_sample_rate ;;
  emit (Stdout (pd.make (pd.values edges) index)).

(** [analyze_recording] is cut at its two detection checks into three
    segments; these are the local variables alive at each cut. *)
Record AtBoundaryCheck : Type := {
  bc_sample_rate : Q;
  bc_slope : list Q;
  bc_reference_size : nat;
  boundary_candidate_indexes : list nat
}.

Record AtEdgeCheck : Type := {
  ec_upsampled : Upsampled;
  ec_slope : list Q;
  ec_edges : pd.Series nat
}.

(** Lines 180-266: from the inputs to the boundary candidates. *)
Definition until_boundary_check (L : Library) (args : Args) (spec : Spec)
    (recording : Recording) : Run AtBoundaryCheck :=
  load_inputs L args spec recording ;;;
  down <- downsample L args recording ;;
  let (recording_sample_rate, recording_slope) := down in
  correlated <-
    correlate_boundaries L args spec recording_sample_rate recording_slope ;;
  let (boundaries_reference_samples, cross_correlation) := correlated in
  indexes <-
    find_boundary_candidates args recording_sample_rate cross_correlation ;;
  ret {| bc_sample_rate := recording_sample_rate;
         bc_slope := recording_slope;
         bc_reference_size := length boundaries_reference_samples;
         boundary_candidate_indexes := indexes |}.

(** Lines 268-324: from the boundary candidates to the edges. *)
Definition until_edge_check (L : Library) (args : Args) (s : AtBoundaryCheck)
  : Run AtEdgeCheck :=
  trimmed <-
    trim args (bc_sample_rate s) (bc_slope s) (boundary_candidate_indexes s)
      (bc_reference_size s) ;;
  let '(test_signal_start_index, test_signal_end_index, recording_slope) :=
    trimmed in
  up <-
    upsample L args (bc_sample_rate s) test_signal_start_index
      test_signal_end_index recording_slope ;;
  let (u, recording_slope) := up in
  edges <- detect_edges L args (upsampled_sample_rate u) recording_slope ;;
  ret {| ec_upsampled := u; ec_slope := recording_slope; ec_edges := edges |}.

(** Lines 327-348: the output stage. *)
Definition output_stage (args : Args) (s : AtEdgeCheck) : Run unit :=
  maybe_write_wavfile args (upsampled_sample_rate (ec_upsampled s)) edges_file
    (edge_markers (length (ec_slope s)) (ec_edges s)) false ;;;
  edges <- resolve_polarity (ec_edges s) ;;
  write_output edges (upsampled_start_index (ec_upsampled s))
    (upsampled_sample_rate (ec_upsampled s)).

(** [analyze_recording]. *)
Definition analyze_recording (L : Library) (args : Args) (spec : Spec)
    (recording : Recording) : Run unit :=
  at_boundary_check <- until_boundary_check L args spec recording ;;
  assert (1 <? length (boundary_candidate_indexes at_boundary_check)) ;;;
  at_edge_check <- until_edge_check L args at_boundary_check ;;
  assert (0 <? length (pd.index (ec_edges at_edge_check))) ;;;
  output_stage args at_edge_check.

(** ** IEEE-754 double precision *)

(** Values and exceptions only: the warnings numpy prints on the way (for a
    division by a zero ratio, say) are not part of this module. *)
Module binary64.

(** A Python [float] or a numpy [float64]. *)
Definition float : Type := spec_float.

Definition prec : Z := 53.
Definition emax : Z := 1024.

(** The conversion of a Python [int], as the division operators do it
    before dividing; exact below [2 ^ 53]. *)
Definition of_Z (z : Z) : float := binary_normalize prec emax z 0 false.

Definition mul : float -> float -> float := SFmul prec emax.
Definition div : float -> float -> float := SFdiv prec emax.

(** [a <= b] and [a < b]: false when either side is NaN. *)
Definition leb : float -> float -> bool := SFleb.
Definition ltb : float -> float -> bool := SFltb.

Definition is_zero (x : float) : bool :=
  match x with
  | S754_zero _ => true
  | _ => false
  end.

Definition is_nan (x : float) : bool :=
  match x with
  | S754_nan => true
  | _ => false
  end.

(** The rational a finite float stands for. *)
Definition exact (x : float) : Q :=
  match x with
  | S754_finite s m e =>
      (inject_Z (if s then Z.neg m else Z.pos m) * Qpower 2 e)%Q
  | _ => 0%Q
  end.

(** [a / b] on Python floats. *)
Definition py_div (a b : float) : Run float :=
  if is_zero b then raise ZeroDivisionError else ret (div a b).

(** [np.floor]: zeros, infinities and NaN are returned as they are. *)
Definition floor (x : float) : float :=
  match x with
  | S754_finite s m e =>
      if (0 <=? e)%Z then x
      else
        binary_normalize prec emax
          ((if s then Z.neg m else Z.pos m) / 2 ^ (- e))%Z 0 s
  | _ => x
  end.

Definition abs (x : list float) : list float := map SFabs x.

(** [np.maximum], which hands on a NaN. *)
Definition maximum (a b : float) : float :=
  if is_nan a then a
  else if is_nan b then b
  else if ltb a b then b else a.

(** [np.max]. *)
Definition max (x : list float) : Run float :=
  match x with
  | [] => raise ValueError
  | a :: x' => ret (fold_left maximum x' a)
  end.

(** Lines 221-224: the downsampling ratio and the sample rate after it.
    The first two divisions are Python's, the last one is numpy's, which
    divides by zero without raising. *)
Definition downsampling (min_edge_separation_seconds : float)
    (recording_sample_rate : Z) : Run (float * float) :=
  edge_rate <- py_div (of_Z 1) min_edge_separation_seconds ;;
  quotient <- py_div (of_Z recording_sample_rate) edge_rate ;;
  let downsampling_ratio := floor quotient in
  ret (downsampling_ratio,
       div (of_Z recording_sample_rate) downsampling_ratio).

(** Lines 256-260: the candidate mask over the cross-correlation. *)
Definition boundary_candidates (threshold_ratio : float)
    (cross_correlation : list float) : Run (list bool) :=
  let abs_cross_correlation := abs cross_correlation in
  peak <- max abs_cross_correlation ;;
  ret (map (fun v => leb (mul peak threshold_ratio) v)
         abs_cross_correlation).

(** Lines 256-266: the positions of the boundary candidates. *)
Definition find_boundary_candidates (threshold_ratio : float)
    (cross_correlation : list float) : Run (list nat) :=
  candidates <- boundary_candidates threshold_ratio cross_correlation ;;
  ret (np.nonzero candidates).

End binary64.

(** ** A small library and a small recording, to run the script on *)

Module Example.

(** The dot product of a window of [x] with [r]. *)
Fixpoint dot (x r : list Q) : Q :=
  match x, r with
  | a :: x', b :: r' => (a * b + dot x' r')%Q
  | _, _ => 0%Q
  end.

(** The correlation at the positions where [r] fits inside [x]. *)
Definition correlate (x r : list Q) : list Q :=
  map (fun k => dot (skipn k x) r) (seq 0 (length x + 1 - length r)).

(** Resampling that rejects a ratio below one and keeps the samples. *)
Definition resample (x : list Q) (up down : Q) (window : option (list Q))
  : Exception + list Q :=
  if np.ltb up 1 || np.ltb down 1 then inl ValueError else inr x.

(** Stand-ins for the library routines, simple enough to compute with:
    every distance mask keeps every peak, the prominence of a peak is its
    height. *)
Definition library : Library := {|
  generate_frames := fun count _ =>
    inr (false :: np.tile_false_true (Z.to_nat count));
  generate_fake_samples := fun frames _ _ _ =>
    inr (map (fun b : bool => if b then 1%Q else (-1)%Q) frames);
  firwin := fun _ _ => inr [1%Q];
  convolve := fun a _ => inr a;
  resample_poly := resample;
  correlate_valid := fun x r => inr (correlate x r);
  select_by_peak_distance := fun peaks _ _ => map (fun _ => true) peaks;
  peak_prominences := fun x peaks => map (np.item x) peaks
|}.

Definition args : Args := {|
  min_edge_separation_seconds := 1 # 2;
  boundaries_signal_frames := 3;
  boundaries_score_threshold_ratio := 1 # 2;
  timestamp_resolution_seconds := 1 # 4;
  minimum_negative_slope_peak_height_ratio := 3 # 10;
  minimum_positive_slope_peak_height_ratio := 3 # 10;
  minimum_negative_slope_peak_prominence_ratio := 3 # 10;
  minimum_positive_slope_peak_prominence_ratio := 3 # 10;
  output_file := fun _ => false
|}.

Definition spec : Spec := {|
  fps_num := 60;
  fps_den := 1;
  transition_count := 4;
  delayed_transitions := []
|}.

Definition slope : list Q :=
  [0; 0; -2; 0; 2; 0; -2; 0; 2; 0; -2; 0; 2; 0; 0]%Q.

Definition recording : Recording := {|
  wav_sample_rate := 4;
  wav_samples := slope
|}.

(** The threshold ratio at one: only the best match is a candidate. *)
Definition strict_args : Args := {|
  min_edge_separation_seconds := 1 # 2;
  boundaries_signal_frames := 3;
  boundaries_score_threshold_ratio := 1;
  timestamp_resolution_seconds := 1 # 4;
  minimum_negative_slope_peak_height_ratio := 3 # 10;
  minimum_positive_slope_peak_height_ratio := 3 # 10;
  minimum_negative_slope_peak_prominence_ratio := 3 # 10;
  minimum_positive_slope_peak_prominence_ratio := 3 # 10;
  output_file := fun _ => false
|}.

(** A recording with a single burst: one position matches the reference
    signal best. *)
Definition lone_burst : Recording := {|
  wav_sample_rate := 4;
  wav_samples := [0; 0; -2; 2; -2; 0; 0; 0; 0; 0]%Q
|}.

(** A constant recording: no sample is a peak. *)
Definition flat : Recording := {|
  wav_sample_rate := 4;
  wav_samples := [1; 1; 1; 1; 1; 1]%Q
|}.

(** [firwin] with the check scipy makes on its cutoff, which has to lie
    strictly between 0 and 1, the Nyquist frequency. *)
Definition checked_firwin (numtaps : Z) (cutoff : Q) : Exception + list Q :=
  if Qle_bool cutoff 0 || Qle_bool 1 cutoff then inl ValueError
  else inr [1%Q].

Definition checked_library : Library := {|
  generate_frames := generate_frames library;
  generate_fake_samples := generate_fake_samples library;
  firwin := checked_firwin;
  convolve := convolve library;
  resample_poly := resample_poly library;
  correlate_valid := correlate_valid library;
  select_by_peak_distance := select_by_peak_distance library;
  peak_prominences := peak_prominences library
|}.

(** The same waveform sampled at 3000 Hz. *)
Definition slow_recording : Recording := {|
  wav_sample_rate := 3000;
  wav_samples := slope
|}.

End Example.

(** ** The design, in its own words *)

(** The downsampling ratio the design asks for: [floor(R * dt)]. *)
Definition design_downsampling_ratio (R dt : Q) : Q :=
  inject_Z (Qfloor (R * dt)).

(** The upsampling ratio the design asks for: [ceil((1 / tau) / R')]. *)
Definition design_upsampling_ratio (tau R' : Q) : Q :=
  inject_Z (Qceiling ((1 / tau) / R')).

(** The table the design asks for: one row per edge, its timestamp
    [(offset + start) / rate] and its frame. *)
Definition design_table (edges : pd.Series nat) (start rate : Q)
  : list (Q * bool) :=
  map (fun e => (((np.of_nat (fst e) + start) / rate)%Q, snd e)) edges.

(** A run that writes no row to the primary output. *)
Definition quiet {A} (r : Run A) : Prop := stdout_rows (trace r) = [].

(** A run that, when it ends in an exception, has written no row. *)
Definition clean {A} (r : Run A) : Prop :=
  forall e, outcome r = inl e -> stdout_rows (trace r) = [].

(** A plateau of [x]: samples [l..r] all equal, the one before and the one
    after strictly smaller. *)
Definition plateau (x : list Q) (l r : nat) : Prop :=
  1 <= l /\ l <= r /\
  (np.item x (l - 1) < np.item x l)%Q /\
  (forall k, l <= k <= r -> (np.item x k == np.item x l)%Q) /\
  (np.item x (r + 1) < np.item x l)%Q.

(** The settings [parse_arguments] falls back on (lines 32-79), with no
    debug artifact asked for. *)
Definition default_args : Args := {|
  min_edge_separation_seconds := 5 # 10000;
  boundaries_signal_frames := 11;
  boundaries_score_threshold_ratio := 5 # 10;
  timestamp_resolution_seconds := 1 # 100000;
  minimum_negative_slope_peak_height_ratio := 3 # 10;
  minimum_positive_slope_peak_height_ratio := 3 # 10;
  minimum_negative_slope_peak_prominence_ratio := 3 # 10;
  minimum_positive_slope_peak_prominence_ratio := 3 # 10;
  output_file := fun _ => false
|}.

(** The command line with no debug artifact asked for. *)
Definition without_debug_files (args : Args) : Args := {|
  min_edge_separation_seconds := min_edge_separation_seconds args;
  boundaries_signal_frames := boundaries_signal_frames args;
  boundaries_score_threshold_ratio := boundaries_score_threshold_ratio args;
  timestamp_resolution_seconds := timestamp_resolution_seconds args;
  minimum_negative_slope_peak_height_ratio :=
    minimum_negative_slope_peak_height_ratio args;
  minimum_positive_slope_peak_height_ratio :=
    minimum_positive_slope_peak_height_ratio args;
  minimum_negative_slope_peak_prominence_ratio :=
    minimum_negative_slope_peak_prominence_ratio args;
  minimum_positive_slope_peak_prominence_ratio :=
    minimum_positive_slope_peak_prominence_ratio args;
  output_file := fun _ => false
|}.

(** A trace without its debug artifacts: what is left is what the script
    wrote to [sys.stderr] and [sys.stdout], in order. *)
Fixpoint observable (t : list Event) : list Event :=
  match t with
  | [] => []
  | WavFile _ _ _ _ :: t' => observable t'
  | e :: t' => e :: observable t'
  end.

(** The edge-search parameters with the two polarities exchanged. *)
Definition swap_polarity (p : FindEdgeParams) : FindEdgeParams := {|
  minimum_negative_height := minimum_positive_height p;
  minimum_positive_height := minimum_negative_height p;
  minimum_falling_edge_distance := minimum_rising_edge_distance p;
  minimum_rising_edge_distance := minimum_falling_edge_distance p;
  minimum_negative_prominence := minimum_positive_prominence p;
  minimum_positive_prominence := minimum_negative_prominence p
|}.

(** What the script itself wrote to [sys.stderr] and [sys.stdout], in
    order: a trace without its debug artifacts and without numpy's
    warning. *)
Fixpoint script_output (t : list Event) : list Event :=
  match t with
  | [] => []
  | WavFile _ _ _ _ :: t' => script_output t'
  | Stderr InvalidValueInDivide :: t' => script_output t'
  | e :: t' => e :: script_output t'
  end.

(** Two runs that end the same way and differ at most in the debug
    artifacts they wrote and in numpy's warning. *)
Definition same_but_artifacts {A} (r r' : Run A) : Prop :=
  outcome r = outcome r' /\
  script_output (trace r) = script_output (trace r').

(** A run that, debug artifacts apart, writes diagnostics only. *)
Definition diagnostics_only {A} (r : Run A) : Prop :=
  observable (trace r) = map Stderr (stderr_lines (trace r)).

(** * Properties *)

(** ** The embedding at work *)

(** A plateau is reported at its midpoint, rounded down; a rise to the
    last sample is no peak. *)
Example local_maxima_of_plateaus :
  scipy.local_maxima_1d [0; 1; 1; 1; 0; 2; 2; 3; 1; 1; 4]%Q = [2; 7].
Proof. reflexivity. Qed.

Example edges_of_the_example_slope :
  find_edges Example.library Example.slope
    (find_edge_params Example.args 4 (-2) 2)
  = ret [(2, false); (4, true); (6, false); (8, true); (10, false);
         (12, true)].
Proof. reflexivity. Qed.

Example table_of_the_example_recording :
  stdout_rows
    (trace
       (analyze_recording Example.library Example.args Example.spec
          Example.recording))
  = [(4 # 8, true); (8 # 8, false); (12 # 8, true); (16 # 8, false);
     (20 # 8, true); (24 # 8, false)]%Q.
Proof. reflexivity. Qed.

(** ** Runs *)

Lemma outcome_bind {A B} (m : Run A) (f : A -> Run B) :
  outcome (bind m f)
  = match outcome m with
    | inl e => inl e
    | inr a => outcome (f a)
    end.
Proof.
  destruct m as [out [e | a]]; simpl; [reflexivity |].
  destruct (f a); reflexivity.
Qed.

Lemma trace_bind {A B} (m : Run A) (f : A -> Run B) :
  trace (bind m f)
  = trace m ++ match outcome m with
               | inl _ => []
               | inr a => trace (f a)
               end.
Proof.
  destruct m as [out [e | a]]; simpl.
  - now rewrite app_nil_r.
  - destruct (f a); reflexivity.
Qed.

Lemma bind_ret {A B} (a : A) (f : A -> Run B) : bind (ret a) f = f a.
Proof. unfold bind, ret. destruct (f a); reflexivity. Qed.

Lemma bind_run {A B} (m : Run A) (f : A -> Run B) (a : A) :
  outcome m = inr a -> bind m f = (trace m ++ trace (f a), outcome (f a)).
Proof.
  destruct m as [out [e | a']]; simpl; [discriminate |].
  intros [= ->]. destruct (f a); reflexivity.
Qed.

Lemma stdout_rows_app (t u : list Event) :
  stdout_rows (t ++ u) = stdout_rows t ++ stdout_rows u.
Proof.
  induction t as [| [d | f r x n | rows] t IH]; simpl; auto.
  now rewrite IH, app_assoc.
Qed.

Lemma stderr_lines_app (t u : list Event) :
  stderr_lines (t ++ u) = stderr_lines t ++ stderr_lines u.
Proof.
  induction t as [| [d | f r x n | rows] t IH]; simpl; auto.
  now rewrite IH.
Qed.

(** A debug artifact is never a row of the table, and writing one without
    normalization never fails. *)
Lemma maybe_write_wavfile_rows args rate file samples normalize :
  stdout_rows (trace (maybe_write_wavfile args rate file samples normalize))
  = [].
Proof.
  unfold maybe_write_wavfile.
  destruct (negb (output_file args file)); [reflexivity |].
  destruct normalize; [| reflexivity].
  destruct samples as [| v samples]; [reflexivity |].
  cbn [np.abs map np.max]. rewrite bind_ret.
  destruct (Qeq_bool _ 0); reflexivity.
Qed.

Lemma maybe_write_wavfile_plain args rate file samples :
  outcome (maybe_write_wavfile args rate file samples false) = inr tt.
Proof.
  unfold maybe_write_wavfile.
  destruct (negb (output_file args file)); reflexivity.
Qed.

Lemma maybe_write_wavfile_lines args rate file samples :
  stderr_lines (trace (maybe_write_wavfile args rate file samples false))
  = [].
Proof.
  unfold maybe_write_wavfile.
  destruct (negb (output_file args file)); reflexivity.
Qed.

(** ** Divisions *)

Lemma Qeq_bool_false (a b : Q) : ~ (a == b)%Q -> Qeq_bool a b = false.
Proof.
  intro H. destruct (Qeq_bool a b) eqn:E; [| reflexivity].
  now apply Qeq_bool_iff in E.
Qed.

Lemma py_div_defined (a b : Q) :
  ~ (b == 0)%Q -> np.py_div a b = ret (a / b)%Q.
Proof. intro H. unfold np.py_div. now rewrite Qeq_bool_false. Qed.

Lemma true_divide_defined (a b : Q) :
  ~ (b == 0)%Q -> np.true_divide a b = ret (a / b)%Q.
Proof. intro H. unfold np.true_divide. now rewrite Qeq_bool_false. Qed.

Lemma Qinv_nonzero (a : Q) : ~ (a == 0)%Q -> ~ (/ a == 0)%Q.
Proof.
  intros H E. apply H.
  rewrite <- (Qinv_involutive a), E. reflexivity.
Qed.

Lemma Qfloor_eq (a b : Q) : (a == b)%Q -> Qfloor a = Qfloor b.
Proof. intro H. now rewrite H. Qed.

(** ** The downsampler *)

(** In exact arithmetic the two divisions of lines 221-224 cancel: for a
    sample rate [R > 0] and a minimum edge separation [dt > 0] with
    [floor(R * dt) >= 1], the ratio of the rational embedding is
    [floor(R * dt)] and the rate it goes on with is [R] divided by that
    ratio. *)
Lemma downsampling_in_exact_arithmetic (args : Args) (R : Q) :
  (0 < R)%Q ->
  (0 < min_edge_separation_seconds args)%Q ->
  (1 <= Qfloor (R * min_edge_separation_seconds args))%Z ->
  let M := design_downsampling_ratio R (min_edge_separation_seconds args) in
  downsampling args R = ret (M, (R / M)%Q).
Proof.
  intros HR Hdt HM M.
  set (dt := min_edge_separation_seconds args) in *.
  assert (Hdt0 : ~ (dt == 0)%Q) by (intro E; rewrite E in Hdt; discriminate).
  assert (Hinv : ~ (1 / dt == 0)%Q).
  { unfold Qdiv. rewrite Qmult_1_l. now apply Qinv_nonzero. }
  assert (Hfloor : np.floor (R / (1 / dt)) = M).
  { unfold np.floor, M, design_downsampling_ratio. f_equal.
    apply Qfloor_eq. now field. }
  assert (HM0 : ~ (M == 0)%Q).
  { unfold M, design_downsampling_ratio, Qeq.
    cbn [Qnum Qden inject_Z]. lia. }
  unfold downsampling. fold dt.
  rewrite (py_div_defined _ _ Hdt0), bind_ret.
  rewrite (py_div_defined _ _ Hinv), bind_ret.
  rewrite Hfloor.
  rewrite (true_divide_defined _ _ HM0), bind_ret.
  reflexivity.
Qed.

(** [np.floor] on doubles: towards minus infinity, whole numbers and
    zeros unchanged. *)
Example floor_of_doubles :
  binary64.floor (S754_finite true 3 (-1)) = binary64.of_Z (-2) /\
  binary64.floor (S754_finite false 5404319552844595 (-54))
  = S754_zero false /\
  binary64.floor (S754_finite true 1 (-2)) = binary64.of_Z (-1) /\
  binary64.floor (binary64.of_Z 7) = binary64.of_Z 7 /\
  binary64.floor (S754_finite false 6192449487634431 (-49))
  = binary64.of_Z 10 /\
  binary64.floor (S754_zero true) = S754_zero true.
Proof. repeat split; reflexivity. Qed.




(** ** The upsampler *)

(** C5.  For a timestamp resolution [tau > 0] and a current rate [R' > 0],
    the script's upsampling ratio is [U = ceil((1 / tau) / R')], the rate it
    goes on with is [R' * U], and the start and the end offset of the test
    signal are both multiplied by [U]; nothing is raised on the way. *)
Theorem upsampling_ratio_rate_and_bounds (args : Args) (R' : Q)
    (start stop : nat) :
  (0 < timestamp_resolution_seconds args)%Q ->
  (0 < R')%Q ->
  let U := design_upsampling_ratio (timestamp_resolution_seconds args) R' in
  upsampling args R' start stop
  = ret {| upsampling_ratio := U;
           upsampled_sample_rate := (R' * U)%Q;
           upsampled_start_index := (np.of_nat start * U)%Q;
           upsampled_end_index := (np.of_nat stop * U)%Q |}.
Proof.
  intros Htau HR U.
  assert (Htau0 : ~ (timestamp_resolution_seconds args == 0)%Q)
    by (intro E; rewrite E in Htau; discriminate).
  assert (HR0 : ~ (R' == 0)%Q) by (intro E; rewrite E in HR; discriminate).
  unfold upsampling.
  rewrite (py_div_defined _ _ Htau0), bind_ret.
  rewrite (true_divide_defined _ _ HR0), bind_ret.
  reflexivity.
Qed.

Lemma upsampling_ratio_rate_and_bounds_witness :
  upsampling Example.args 2 0 15
  = ret {| upsampling_ratio := design_upsampling_ratio (1 # 4) 2;
           upsampled_sample_rate := (2 * design_upsampling_ratio (1 # 4) 2)%Q;
           upsampled_start_index :=
             (np.of_nat 0 * design_upsampling_ratio (1 # 4) 2)%Q;
           upsampled_end_index :=
             (np.of_nat 15 * design_upsampling_ratio (1 # 4) 2)%Q |}.
Proof.
  apply (upsampling_ratio_rate_and_bounds Example.args 2 0 15);
    reflexivity.
Defined.

(** ** The polarity resolver *)

Section Polarity.

Context {I : Type}.
Implicit Types edges resolved : pd.Series I.

Lemma iloc_first_ret edges b :
  outcome (pd.iloc_first edges) = inr b -> pd.iloc_first edges = ret b.
Proof.
  destruct edges as [| e edges]; simpl; [discriminate |].
  now intros [= ->].
Qed.

Lemma iloc_last_ret edges b :
  outcome (pd.iloc_last edges) = inr b -> pd.iloc_last edges = ret b.
Proof.
  unfold pd.iloc_last. destruct (rev edges) as [| e r]; simpl;
    [discriminate |].
  now intros [= ->].
Qed.

Lemma iloc_defined edges :
  edges <> [] ->
  exists first last,
    pd.iloc_first edges = ret first /\ pd.iloc_last edges = ret last.
Proof.
  intro H. destruct edges as [| e edges]; [contradiction |].
  exists (snd e). unfold pd.iloc_last.
  destruct (rev (e :: edges)) as [| e' r] eqn:E.
  - apply (f_equal (@length _)) in E. rewrite length_rev in E. discriminate.
  - now exists (snd e').
Qed.

Lemma invert_index edges : pd.index (pd.invert edges) = pd.index edges.
Proof.
  unfold pd.index, pd.invert. rewrite map_map. reflexivity.
Qed.

Lemma iloc_first_invert edges b :
  pd.iloc_first edges = ret b -> pd.iloc_first (pd.invert edges) = ret (negb b).
Proof.
  destruct edges as [| e edges]; simpl; [discriminate |].
  now intros [= ->].
Qed.

Lemma iloc_last_invert edges b :
  pd.iloc_last edges = ret b -> pd.iloc_last (pd.invert edges) = ret (negb b).
Proof.
  unfold pd.iloc_last, pd.invert. rewrite <- map_rev.
  destruct (rev edges) as [| e r]; simpl; [discriminate |].
  now intros [= ->].
Qed.

(** What lines 332-345 do, by the first and the last edge. *)
Lemma resolve_polarity_run edges first last :
  pd.iloc_first edges = ret first ->
  pd.iloc_last edges = ret last ->
  resolve_polarity edges
  = if Bool.eqb first last
    then ([Stderr (WarningSamePolarity first)], inr edges)
    else ([Stderr (DeducedPolarity first last)],
          inr (if negb first then pd.invert edges else edges)).
Proof.
  intros Hf Hl. unfold resolve_polarity.
  rewrite Hf, bind_ret, Hl, bind_ret.
  destruct (Bool.eqb first last); reflexivity.
Qed.

End Polarity.

(** C1, as the code has it.  For an Edge Set whose first and last edges
    differ in polarity the resolver reports what it deduced and then: when
    the first edge is falling it inverts every polarity bit (falling then
    means a transition to white), when the first edge is rising it leaves
    the bits as stored; either way the first edge ends up [true] and the
    last one [false], so that [true] denotes a transition to white, and no
    offset changes. *)
Theorem polarity_flip_rule {I : Type} (edges : pd.Series I)
    (first last : bool) :
  outcome (pd.iloc_first edges) = inr first ->
  outcome (pd.iloc_last edges) = inr last ->
  first <> last ->
  exists resolved,
    resolve_polarity edges
    = ([Stderr (DeducedPolarity first last)], inr resolved) /\
    (first = false -> resolved = pd.invert edges) /\
    (first = true -> resolved = edges) /\
    pd.index resolved = pd.index edges /\
    outcome (pd.iloc_first resolved) = inr true /\
    outcome (pd.iloc_last resolved) = inr false.
Proof.
  intros Hf Hl Hne.
  apply iloc_first_ret in Hf. apply iloc_last_ret in Hl.
  rewrite (resolve_polarity_run edges first last Hf Hl).
  destruct first, last; try congruence; simpl.
  - exists edges. rewrite Hf, Hl. repeat split; auto; discriminate.
  - exists (pd.invert edges).
    rewrite (iloc_first_invert _ _ Hf), (iloc_last_invert _ _ Hl).
    repeat split; auto using invert_index; discriminate.
Qed.

Lemma polarity_flip_rule_witness :
  exists resolved,
    resolve_polarity [(2, false); (6, true)]
    = ([Stderr (DeducedPolarity false true)], inr resolved) /\
    (false = false -> resolved = pd.invert [(2, false); (6, true)]) /\
    (false = true -> resolved = [(2, false); (6, true)]) /\
    pd.index resolved = pd.index [(2, false); (6, true)] /\
    outcome (pd.iloc_first resolved) = inr true /\
    outcome (pd.iloc_last resolved) = inr false.
Proof.
  apply (polarity_flip_rule [(2, false); (6, true)] false true);
    [reflexivity | reflexivity | discriminate].
Defined.

(** C1, as stated, fails both ways.  An Edge Set that starts falling and
    ends rising does not keep its stored bits, it comes back inverted; one
    that starts rising and ends falling is not inverted, it comes back as
    stored. *)
Lemma polarity_flip_rule_as_stated_fails :
  (outcome (resolve_polarity [(2, false); (6, true)])
   = inr [(2, true); (6, false)]
   /\ outcome (resolve_polarity [(2, false); (6, true)])
      <> inr [(2, false); (6, true)])
  /\
  (outcome (resolve_polarity [(2, true); (6, false)])
   = inr [(2, true); (6, false)]
   /\ outcome (resolve_polarity [(2, true); (6, false)])
      <> inr (pd.invert [(2, true); (6, false)])).
Proof.
  repeat split; try reflexivity; vm_compute; intro H; discriminate H.
Qed.

(** C9.  The resolver is idempotent: on a non-empty Edge Set it returns an
    Edge Set on which a second application returns the same Edge Set.  When
    the original first edge was falling and the last one rising, that is the
    inverted Edge Set, and the second application leaves it alone. *)
Theorem resolve_polarity_idempotent {I : Type} (edges : pd.Series I) :
  edges <> [] ->
  exists resolved,
    outcome (resolve_polarity edges) = inr resolved /\
    outcome (resolve_polarity resolved) = inr resolved /\
    (outcome (pd.iloc_first edges) = inr false ->
     outcome (pd.iloc_last edges) = inr true ->
     resolved = pd.invert edges).
Proof.
  intro Hne.
  destruct (iloc_defined edges Hne) as (first & last & Hf & Hl).
  rewrite (resolve_polarity_run edges first last Hf Hl).
  destruct first, last; simpl.
  - exists edges. rewrite (resolve_polarity_run edges true true Hf Hl).
    repeat split; auto. rewrite Hf. discriminate.
  - exists edges. rewrite (resolve_polarity_run edges true false Hf Hl).
    repeat split; auto. rewrite Hf. discriminate.
  - exists (pd.invert edges).
    rewrite (resolve_polarity_run (pd.invert edges) true false
               (iloc_first_invert _ _ Hf) (iloc_last_invert _ _ Hl)).
    repeat split; auto.
  - exists edges. rewrite (resolve_polarity_run edges false false Hf Hl).
    repeat split; auto. rewrite Hl. discriminate.
Qed.

Lemma resolve_polarity_idempotent_witness :
  exists resolved,
    outcome (resolve_polarity [(2, false); (4, true); (6, true)])
    = inr resolved /\
    outcome (resolve_polarity resolved) = inr resolved /\
    (outcome (pd.iloc_first [(2, false); (4, true); (6, true)]) = inr false ->
     outcome (pd.iloc_last [(2, false); (4, true); (6, true)]) = inr true ->
     resolved = pd.invert [(2, false); (4, true); (6, true)]).
Proof.
  apply (resolve_polarity_idempotent [(2, false); (4, true); (6, true)]).
  discriminate.
Defined.

(** ** The output formatter *)

Lemma combine_fst_snd {A B C} (f : A -> C) (l : list (A * B)) :
  combine (map f (map fst l)) (map snd l)
  = map (fun e => (f (fst e), snd e)) l.
Proof.
  induction l as [| e l IH]; simpl; [reflexivity |].
  now rewrite IH.
Qed.

Lemma resolve_polarity_quiet {I : Type} (edges : pd.Series I) :
  stdout_rows (trace (resolve_polarity edges)) = [].
Proof.
  destruct edges as [| e l]; [reflexivity |].
  destruct (iloc_defined (e :: l)) as (first & last & Hf & Hl);
    [discriminate |].
  rewrite (resolve_polarity_run _ first last Hf Hl).
  destruct (Bool.eqb first last); reflexivity.
Qed.

Lemma write_output_run (edges : pd.Series nat) (start rate : Q) :
  ~ (rate == 0)%Q ->
  write_output edges start rate
  = ([Stdout (design_table edges start rate)], inr tt).
Proof.
  intro Hrate. unfold write_output, timestamps, pd.make, pd.values, pd.index.
  destruct edges as [| e edges]; [reflexivity |].
  cbn [map]. rewrite (Qeq_bool_false _ _ Hrate), bind_ret.
  unfold emit, design_table. cbn [map combine].
  now rewrite combine_fst_snd.
Qed.

Lemma output_stage_run (args : Args) (s : AtEdgeCheck)
    (resolved : pd.Series nat) :
  outcome (resolve_polarity (ec_edges s)) = inr resolved ->
  ~ (upsampled_sample_rate (ec_upsampled s) == 0)%Q ->
  outcome (output_stage args s) = inr tt /\
  stdout_rows (trace (output_stage args s))
  = design_table resolved (upsampled_start_index (ec_upsampled s))
      (upsampled_sample_rate (ec_upsampled s)) /\
  stderr_lines (trace (output_stage args s))
  = stderr_lines (trace (resolve_polarity (ec_edges s))).
Proof.
  intros Hres Hrate. unfold output_stage.
  rewrite (bind_run _ _ tt (maybe_write_wavfile_plain _ _ _ _)).
  rewrite (bind_run _ _ resolved Hres).
  rewrite (write_output_run _ _ _ Hrate).
  cbn [outcome trace fst snd].
  rewrite !stdout_rows_app, !stderr_lines_app.
  rewrite maybe_write_wavfile_rows, maybe_write_wavfile_lines.
  rewrite (resolve_polarity_quiet (ec_edges s)).
  cbn [stdout_rows stderr_lines app].
  now rewrite !app_nil_r.
Qed.

Lemma resolve_polarity_cases {I : Type} (edges : pd.Series I) :
  edges <> [] ->
  exists resolved,
    outcome (resolve_polarity edges) = inr resolved /\
    (resolved = edges \/ resolved = pd.invert edges).
Proof.
  intro Hne.
  destruct (iloc_defined edges Hne) as (first & last & Hf & Hl).
  rewrite (resolve_polarity_run edges first last Hf Hl).
  destruct (Bool.eqb first last); [| destruct (negb first)]; simpl; eauto.
Qed.

Lemma timestamp_increasing (start rate : Q) (i j : nat) :
  (0 < rate)%Q -> i < j ->
  ((np.of_nat i + start) / rate < (np.of_nat j + start) / rate)%Q.
Proof.
  intros Hrate Hij. unfold Qdiv.
  apply Qmult_lt_compat_r; [now apply Qinv_lt_0_compat |].
  apply Qplus_lt_l. unfold np.of_nat. rewrite <- Zlt_Qlt. lia.
Qed.

Lemma design_table_sorted (edges : pd.Series nat) (start rate : Q) :
  (0 < rate)%Q ->
  StronglySorted lt (pd.index edges) ->
  StronglySorted Qlt (map fst (design_table edges start rate)).
Proof.
  intros Hrate. unfold pd.index, design_table.
  induction edges as [| e edges IH]; simpl; intro Hs; [constructor |].
  inversion Hs as [| a l Hl Hall]; subst.
  constructor; [now apply IH |].
  rewrite map_map. simpl. rewrite Forall_map in Hall |- *.
  eapply Forall_impl; [| exact Hall].
  intros e' He'. simpl. now apply timestamp_increasing.
Qed.

(** ** The boundary locator *)

Lemma Qmaxb_fold (x : list Q) (a : Q) :
  let peak := fold_left np.Qmaxb x a in
  (a <= peak)%Q /\
  Forall (fun v => (v <= peak)%Q) x /\
  (peak = a \/ In peak x).
Proof.
  revert a. induction x as [| b x IH]; intro a; simpl.
  - repeat split; auto. apply Qle_refl.
  - destruct (IH (np.Qmaxb a b)) as (Hge & Hall & Hin).
    assert (Ha : (a <= np.Qmaxb a b)%Q /\ (b <= np.Qmaxb a b)%Q
                 /\ (np.Qmaxb a b = a \/ np.Qmaxb a b = b)).
    { unfold np.Qmaxb. destruct (Qle_bool a b) eqn:E.
      - apply Qle_bool_iff in E. repeat split; auto. apply Qle_refl.
      - repeat split; auto; [apply Qle_refl |].
        destruct (Qlt_le_dec b a) as [Hlt | Hle].
        + now apply Qlt_le_weak.
        + apply Qle_bool_iff in Hle. congruence. }
    destruct Ha as (Ha & Hb & Hab).
    repeat split.
    + eapply Qle_trans; eassumption.
    + constructor; [eapply Qle_trans; eassumption | assumption].
    + destruct Hin as [-> | Hin]; [| now right; right].
      destruct Hab as [-> | ->]; [now left | now right; left].
Qed.

(** [np.max] returns an element of the array that bounds all of them. *)
Lemma np_max_spec (x : list Q) :
  x <> [] ->
  exists peak,
    np.max x = ret peak /\
    (forall j, j < length x -> (np.item x j <= peak)%Q) /\
    (exists j, j < length x /\ np.item x j = peak).
Proof.
  intro Hne. destruct x as [| a x]; [contradiction |].
  destruct (Qmaxb_fold x a) as (Hge & Hall & Hin).
  exists (fold_left np.Qmaxb x a). split; [reflexivity |]. split.
  - intros [| j] Hj; unfold np.item; simpl; [assumption |].
    rewrite Forall_forall in Hall. apply Hall, nth_In. simpl in Hj. lia.
  - destruct Hin as [E | Hin].
    + exists 0. split; [simpl; lia | now rewrite E].
    + destruct (In_nth _ _ 0%Q Hin) as (j & Hj & E).
      exists (S j). split; [simpl; lia | exact E].
Qed.

Lemma nonzero_from_spec (mask : list bool) (k i : nat) :
  In i (np.nonzero_from k mask)
  <-> k <= i /\ i - k < length mask /\ nth (i - k) mask false = true.
Proof.
  revert k. induction mask as [| b mask IH]; intro k.
  - simpl. split; [contradiction | intros (_ & H & _); lia].
  - cbn [np.nonzero_from length].
    assert (Hrec : In i (np.nonzero_from (S k) mask)
                   <-> k < i /\ i - k - 1 < length mask
                       /\ nth (i - k - 1) mask false = true).
    { rewrite IH. replace (i - S k) with (i - k - 1) by lia.
      split; intros (H1 & H2 & H3); repeat split; auto; lia. }
    destruct (Nat.eq_dec i k) as [-> | Hik].
    + rewrite Nat.sub_diag. cbn [nth].
      destruct b; cbn [In]; rewrite ?Hrec.
      * split; [intros _; repeat split; lia | now left].
      * split; [intros (H & _); lia | intros (_ & _ & H); discriminate].
    + assert (Hnth : k <= i ->
                     nth (i - k) (b :: mask) false
                     = nth (i - k - 1) mask false).
      { intro H. destruct (i - k) as [| n] eqn:E; [lia |].
        cbn [nth]. now rewrite Nat.sub_succ, Nat.sub_0_r. }
      destruct b; cbn [In]; rewrite Hrec.
      * split.
        -- intros [E | (H1 & H2 & H3)]; [congruence |].
           rewrite Hnth by lia. repeat split; auto; lia.
        -- intros (H1 & H2 & H3). right.
           rewrite Hnth in H3 by lia. repeat split; auto; lia.
      * split.
        -- intros (H1 & H2 & H3).
           rewrite Hnth by lia. repeat split; auto; lia.
        -- intros (H1 & H2 & H3).
           rewrite Hnth in H3 by lia. repeat split; auto; lia.
Qed.

Lemma nonzero_from_sorted (mask : list bool) (k : nat) :
  StronglySorted lt (np.nonzero_from k mask).
Proof.
  revert k. induction mask as [| b mask IH]; intro k; simpl;
    [constructor |].
  destruct b; [| apply IH].
  constructor; [apply IH |].
  apply Forall_forall. intros i Hi.
  apply nonzero_from_spec in Hi. lia.
Qed.

Lemma nonzero_spec (mask : list bool) (i : nat) :
  In i (np.nonzero mask) <-> i < length mask /\ nth i mask false = true.
Proof.
  unfold np.nonzero. rewrite nonzero_from_spec, Nat.sub_0_r.
  split; [tauto | intros (H1 & H2); repeat split; auto; lia].
Qed.

(** In a strictly increasing list the head is the least element and the
    last element the greatest. *)
Lemma sorted_hd_least (l : list nat) :
  StronglySorted lt l -> l <> [] ->
  In (hd 0 l) l /\ forall i, In i l -> hd 0 l <= i.
Proof.
  intros Hs Hne. destruct l as [| a l]; [contradiction |].
  simpl. split; [now left |].
  apply StronglySorted_inv in Hs. destruct Hs as (_ & Hall).
  rewrite Forall_forall in Hall.
  intros i [-> | Hi]; [lia |]. apply Nat.lt_le_incl. now apply Hall.
Qed.

Lemma sorted_last_greatest (l : list nat) :
  StronglySorted lt l -> l <> [] ->
  In (last l 0) l /\ forall i, In i l -> i <= last l 0.
Proof.
  induction l as [| a l IH]; intros Hs Hne; [contradiction |].
  apply StronglySorted_inv in Hs. destruct Hs as (Hs & Hall).
  destruct l as [| b l].
  - simpl. split; [now left |]. intros i [-> | []]. lia.
  - destruct (IH Hs) as (Hin & Hmax); [discriminate |].
    change (last (a :: b :: l) 0) with (last (b :: l) 0).
    split; [now right |].
    intros i [<- | Hi]; [| now apply Hmax].
    rewrite Forall_forall in Hall.
    apply Nat.lt_le_incl, Hall, Hin.
Qed.

(** [a[start:stop]] is the half-open window from [start] to [stop]. *)
Lemma slice_window {A} (a : list A) (start stop : nat) :
  length (np.slice a start stop) = Nat.min stop (length a) - start /\
  forall k, start <= k < stop ->
            nth_error (np.slice a start stop) (k - start) = nth_error a k.
Proof.
  unfold np.slice. split.
  - now rewrite length_skipn, length_firstn.
  - intros k Hk. rewrite nth_error_skipn, nth_error_firstn.
    replace (start + (k - start)) with k by lia.
    destruct (Nat.ltb_spec k stop); [reflexivity | lia].
Qed.

Lemma boundary_candidates_run (threshold_ratio : Q) (cc : list Q) (peak : Q) :
  np.max (np.abs cc) = ret peak ->
  boundary_candidates threshold_ratio cc
  = ret (map (fun v => Qle_bool (peak * threshold_ratio)%Q v) (np.abs cc)).
Proof.
  intro H. unfold boundary_candidates. now rewrite H, bind_ret.
Qed.

Lemma find_boundary_candidates_outcome (args : Args) (rate : Q)
    (cc : list Q) (peak : Q) :
  np.max (np.abs cc) = ret peak ->
  outcome (find_boundary_candidates args rate cc)
  = inr (np.nonzero
           (map (fun v =>
                   Qle_bool (peak * boundaries_score_threshold_ratio args)%Q v)
              (np.abs cc))).
Proof.
  intro H. unfold find_boundary_candidates.
  rewrite (boundary_candidates_run _ _ _ H), bind_ret.
  rewrite outcome_bind, maybe_write_wavfile_plain. reflexivity.
Qed.

Lemma candidate_spec (threshold : Q) (cc : list Q) (i : nat) :
  In i (np.nonzero (map (fun v => Qle_bool threshold v) (np.abs cc)))
  <-> i < length cc /\ (threshold <= Qabs (np.item cc i))%Q.
Proof.
  rewrite nonzero_spec. unfold np.abs. rewrite !length_map.
  split; intros (Hi & H); split; auto.
  - rewrite (nth_indep _ false (Qle_bool threshold (Qabs 0)%Q)) in H
      by now rewrite !length_map.
    rewrite (map_nth (fun v => Qle_bool threshold v)) in H.
    rewrite (map_nth Qabs) in H. now apply Qle_bool_iff.
  - rewrite (nth_indep _ false (Qle_bool threshold (Qabs 0)%Q))
      by now rewrite !length_map.
    rewrite (map_nth (fun v => Qle_bool threshold v)).
    rewrite (map_nth Qabs). now apply Qle_bool_iff.
Qed.

Lemma abs_item (cc : list Q) (j : nat) :
  np.item (np.abs cc) j = Qabs (np.item cc j).
Proof. unfold np.item, np.abs. exact (map_nth Qabs cc 0%Q j). Qed.

Lemma find_boundary_candidates_defined (args : Args) (rate : Q)
    (cc : list Q) (idx : list nat) :
  outcome (find_boundary_candidates args rate cc) = inr idx -> cc <> [].
Proof.
  intros H ->. discriminate H.
Qed.

(** C3.  A position is a boundary candidate exactly when the absolute
    cross-correlation there is at least the threshold ratio times the
    greatest absolute cross-correlation; the start of the test signal is the
    earliest candidate, its end the latest candidate plus the length of the
    reference signal, and the trimmed slope is the half-open window from
    start to end of the downsampled slope. *)
Theorem boundary_locator (args : Args) (rate : Q) (cc slope : list Q)
    (reference_size : nat) (idx : list nat) :
  outcome (find_boundary_candidates args rate cc) = inr idx ->
  exists peak,
    outcome (np.max (np.abs cc)) = inr peak /\
    (forall j, j < length cc -> (Qabs (np.item cc j) <= peak)%Q) /\
    (exists j, j < length cc /\ Qabs (np.item cc j) = peak) /\
    (forall i,
        In i idx <->
        i < length cc /\
        (peak * boundaries_score_threshold_ratio args
         <= Qabs (np.item cc i))%Q) /\
    (idx <> [] ->
     exists start latest trimmed,
       outcome (trim args rate slope idx reference_size)
       = inr (start, latest + reference_size, trimmed) /\
       In start idx /\ (forall i, In i idx -> start <= i) /\
       In latest idx /\ (forall i, In i idx -> i <= latest) /\
       length trimmed
       = Nat.min (latest + reference_size) (length slope) - start /\
       forall k, start <= k < latest + reference_size ->
                 nth_error trimmed (k - start) = nth_error slope k).
Proof.
  intro Hidx.
  assert (Hne : np.abs cc <> []).
  { pose proof (find_boundary_candidates_defined _ _ _ _ Hidx) as H.
    destruct cc; [contradiction | discriminate]. }
  destruct (np_max_spec _ Hne) as (peak & Hmax & Hbound & Hattained).
  unfold np.abs in Hbound, Hattained. rewrite length_map in Hbound, Hattained.
  rewrite (find_boundary_candidates_outcome _ _ _ _ Hmax) in Hidx.
  injection Hidx as <-.
  exists peak. rewrite Hmax. split; [reflexivity |].
  split; [intros j Hj; rewrite <- abs_item; now apply Hbound |].
  split.
  { destruct Hattained as (j & Hj & E). exists j.
    split; [assumption | now rewrite <- abs_item]. }
  split; [intro i; apply candidate_spec |].
  intro Hnonempty.
  set (idx := np.nonzero _) in *.
  assert (Hsorted : StronglySorted lt idx) by apply nonzero_from_sorted.
  destruct (sorted_hd_least idx Hsorted Hnonempty) as (Hs1 & Hs2).
  destruct (sorted_last_greatest idx Hsorted Hnonempty) as (Hl1 & Hl2).
  destruct (slice_window slope (hd 0 idx) (last idx 0 + reference_size))
    as (Hlen & Hwin).
  exists (hd 0 idx), (last idx 0),
    (np.slice slope (hd 0 idx) (last idx 0 + reference_size)).
  repeat split; auto.
  unfold trim, test_signal_bounds.
  rewrite !outcome_bind. cbn [print emit outcome snd].
  now rewrite maybe_write_wavfile_plain.
Qed.

Lemma boundary_locator_witness :
  exists peak,
    outcome (np.max (np.abs [-4; 6; -4; 0; 1]%Q)) = inr peak /\
    (forall j, j < 5 -> (Qabs (np.item [-4; 6; -4; 0; 1]%Q j) <= peak)%Q) /\
    (exists j, j < 5 /\ Qabs (np.item [-4; 6; -4; 0; 1]%Q j) = peak) /\
    (forall i,
        In i [0; 1; 2] <->
        i < 5 /\
        (peak * (1 # 2) <= Qabs (np.item [-4; 6; -4; 0; 1]%Q i))%Q) /\
    ([0; 1; 2] <> [] ->
     exists start latest trimmed,
       outcome (trim Example.args 2 Example.slope [0; 1; 2] 3)
       = inr (start, latest + 3, trimmed) /\
       In start [0; 1; 2] /\ (forall i, In i [0; 1; 2] -> start <= i) /\
       In latest [0; 1; 2] /\ (forall i, In i [0; 1; 2] -> i <= latest) /\
       length trimmed = Nat.min (latest + 3) 15 - start /\
       forall k, start <= k < latest + 3 ->
                 nth_error trimmed (k - start) = nth_error Example.slope k).
Proof.
  apply (boundary_locator Example.args 2 [-4; 6; -4; 0; 1]%Q Example.slope 3
           [0; 1; 2]).
  reflexivity.
Defined.

(** C10, as stated, fails.  One NaN in the cross-correlation, which one
    NaN sample of the recording is enough for, makes [np.max] NaN; every
    comparison with the threshold is then false, no position is a
    candidate, and the check for two candidates fails with none, at a
    ratio of 0.5.  The threshold itself is NaN, with the same end, for an
    infinite entry at a ratio of zero and for a cross-correlation that is
    zero throughout at a ratio of minus infinity. *)
Lemma boundary_candidates_never_empty_as_stated_fails :
  (let ratio := S754_finite false 4503599627370496 (-53) in
   let cc := [binary64.of_Z 2; S754_nan; binary64.of_Z (-3)] in
   cc <> [] /\
   binary64.leb ratio (binary64.of_Z 1) = true /\
   binary64.max (binary64.abs cc) = ret S754_nan /\
   binary64.boundary_candidates ratio cc = ret [false; false; false] /\
   binary64.find_boundary_candidates ratio cc = ret [] /\
   (idx <- binary64.find_boundary_candidates ratio cc ;;
    assert (1 <? length idx))
   = raise AssertionError)
  /\
  (let ratio := S754_zero false in
   let cc := [binary64.of_Z 2; S754_infinity true] in
   cc <> [] /\
   binary64.leb ratio (binary64.of_Z 1) = true /\
   binary64.max (binary64.abs cc) = ret (S754_infinity false) /\
   binary64.find_boundary_candidates ratio cc = ret [])
  /\
  (let ratio := S754_infinity true in
   let cc := [S754_zero false; S754_zero false] in
   cc <> [] /\
   binary64.leb ratio (binary64.of_Z 1) = true /\
   binary64.max (binary64.abs cc) = ret (S754_zero false) /\
   binary64.find_boundary_candidates ratio cc = ret []).
Proof.
  cbv zeta. repeat split; try reflexivity; discriminate.
Qed.

(** C10, amended.  For a non-empty cross-correlation of numbers (no NaN,
    no infinity) and a threshold ratio that is a number of at most one, the
    position of the greatest absolute cross-correlation is a candidate, so
    there is always a candidate; the check for two candidates can then only
    fail with exactly one. *)
Theorem boundary_candidates_never_empty (args : Args) (rate : Q)
    (cc : list Q) :
  cc <> [] ->
  (boundaries_score_threshold_ratio args <= 1)%Q ->
  exists peak idx,
    outcome (np.max (np.abs cc)) = inr peak /\
    outcome (find_boundary_candidates args rate cc) = inr idx /\
    (forall j, j < length cc -> Qabs (np.item cc j) = peak -> In j idx) /\
    (exists j, j < length cc /\ Qabs (np.item cc j) = peak) /\
    idx <> [] /\
    (outcome (assert (1 <? length idx)) = inl AssertionError ->
     length idx = 1).
Proof.
  intros Hcc Hratio.
  assert (Hne : np.abs cc <> []) by (destruct cc; [contradiction | discriminate]).
  destruct (np_max_spec _ Hne) as (peak & Hmax & Hbound & Hattained).
  unfold np.abs in Hattained. rewrite length_map in Hattained.
  destruct Hattained as (j & Hj & E). fold (np.abs cc) in E.
  rewrite abs_item in E.
  exists peak. eexists. rewrite Hmax.
  rewrite (find_boundary_candidates_outcome _ _ _ _ Hmax).
  assert (Hin : forall k, k < length cc -> Qabs (np.item cc k) = peak ->
                In k (np.nonzero
                        (map (fun v =>
                                Qle_bool
                                  (peak
                                   * boundaries_score_threshold_ratio args)%Q
                                  v)
                           (np.abs cc)))).
  { intros k Hk Ek. apply candidate_spec. split; [assumption |].
    rewrite Ek.
    assert (H0 : (0 <= peak)%Q) by (rewrite <- Ek; apply Qabs_nonneg).
    apply Qle_trans with (1 * peak)%Q; [| rewrite Qmult_1_l; apply Qle_refl].
    rewrite (Qmult_comm peak). now apply Qmult_le_compat_r. }
  split; [reflexivity |]. split; [reflexivity |].
  split; [exact Hin |].
  split; [now exists j |].
  pose proof (Hin j Hj E) as Hjin.
  split.
  - intro Hnil. rewrite Hnil in Hjin. contradiction.
  - destruct (np.nonzero _) as [| a [| b l]]; simpl.
    + contradiction.
    + reflexivity.
    + discriminate.
Qed.

Lemma boundary_candidates_never_empty_witness :
  exists peak idx,
    outcome (np.max (np.abs [-4; 6; -4; 0; 1]%Q)) = inr peak /\
    outcome (find_boundary_candidates Example.strict_args 2
               [-4; 6; -4; 0; 1]%Q) = inr idx /\
    (forall j, j < 5 -> Qabs (np.item [-4; 6; -4; 0; 1]%Q j) = peak ->
               In j idx) /\
    (exists j, j < 5 /\ Qabs (np.item [-4; 6; -4; 0; 1]%Q j) = peak) /\
    idx <> [] /\
    (outcome (assert (1 <? length idx)) = inl AssertionError ->
     length idx = 1).
Proof.
  apply (boundary_candidates_never_empty Example.strict_args 2
           [-4; 6; -4; 0; 1]%Q).
  - discriminate.
  - vm_compute. intro H; discriminate H.
Defined.

(** ** The edge detector *)

Lemma ltb_lt (a b : Q) : np.ltb a b = true <-> (a < b)%Q.
Proof.
  unfold np.ltb. rewrite negb_true_iff. split; intro H.
  - apply Qnot_le_lt. intro Hle. apply Qle_bool_iff in Hle. congruence.
  - destruct (Qle_bool b a) eqn:E; [| reflexivity].
    apply Qle_bool_iff in E. exfalso. exact (Qlt_not_le _ _ H E).
Qed.

Lemma negative_item (x : list Q) (k : nat) :
  np.item (np.negative x) k = (- np.item x k)%Q.
Proof. unfold np.item, np.negative. exact (map_nth Qopp x 0%Q k). Qed.

(** The inner loop stops on samples equal to [x[i]] only. *)
Lemma look_ahead_spec (x : list Q) (i i_max fuel start : nat) :
  start <= scipy.look_ahead x i i_max fuel start /\
  forall k, start <= k < scipy.look_ahead x i i_max fuel start ->
            k < i_max /\ (np.item x k == np.item x i)%Q.
Proof.
  revert start. induction fuel as [| fuel IH]; intro start; simpl.
  - split; [lia | intros k Hk; lia].
  - destruct ((start <? i_max) && Qeq_bool (np.item x start) (np.item x i))
      eqn:E.
    + apply andb_true_iff in E. destruct E as (E1 & E2).
      apply Nat.ltb_lt in E1. apply Qeq_bool_iff in E2.
      destruct (IH (S start)) as (H1 & H2). split; [lia |].
      intros k Hk. destruct (Nat.eq_dec k start) as [-> | Hne]; [auto |].
      apply H2. lia.
    + split; [lia | intros k Hk; lia].
Qed.

(** With the fuel the scan gives it, the inner loop ends because its
    condition fails. *)
Lemma look_ahead_exit (x : list Q) (i i_max fuel start : nat) :
  i_max - start <= fuel ->
  let i_ahead := scipy.look_ahead x i i_max fuel start in
  (i_ahead <? i_max) && Qeq_bool (np.item x i_ahead) (np.item x i) = false.
Proof.
  revert start. induction fuel as [| fuel IH]; intros start Hfuel; simpl.
  - replace (start <? i_max) with false; [reflexivity |].
    symmetry. apply Nat.ltb_ge. lia.
  - destruct ((start <? i_max) && Qeq_bool (np.item x start) (np.item x i))
      eqn:E; [| exact E].
    apply IH. lia.
Qed.

(** Every index the scan reports is the midpoint of a plateau at or after
    the position the scan started from. *)
Lemma scan_plateau (x : list Q) (i_max fuel i m : nat) :
  1 <= i ->
  In m (scipy.scan x i_max fuel i) ->
  exists l r, i <= l /\ r < i_max /\ plateau x l r /\ m = (l + r) / 2.
Proof.
  revert i. induction fuel as [| fuel IH]; intros i Hi; simpl;
    [contradiction |].
  destruct (Nat.ltb_spec i i_max) as [Hlt | Hge]; [| contradiction].
  destruct (np.ltb (np.item x (i - 1)) (np.item x i)) eqn:Hup.
  - destruct (look_ahead_spec x i i_max (i_max - (i + 1)) (i + 1))
      as (Hstart & Hequal).
    set (i_ahead := scipy.look_ahead x i i_max (i_max - (i + 1)) (i + 1))
      in *.
    destruct (np.ltb (np.item x i_ahead) (np.item x i)) eqn:Hdown.
    + intros [<- | Hin].
      * exists i, (i_ahead - 1).
        assert (Hmax : i_ahead - 1 < i_max).
        { destruct (Nat.eq_dec i_ahead (i + 1)) as [E | Hne]; [lia |].
          destruct (Hequal (i_ahead - 1)); lia. }
        repeat split; try lia.
        -- now apply ltb_lt.
        -- intros k Hk. destruct (Nat.eq_dec k i) as [-> | Hne];
             [reflexivity |].
           apply Hequal. lia.
        -- replace (i_ahead - 1 + 1) with i_ahead by lia. now apply ltb_lt.
      * destruct (IH (i_ahead + 1) ltac:(lia) Hin)
          as (l & r & Hl & Hr & Hp & Hm).
        exists l, r. split; [lia |]. split; [exact Hr |].
        split; [exact Hp | exact Hm].
    + intro Hin.
      destruct (IH (i + 1) ltac:(lia) Hin) as (l & r & Hl & Hr & Hp & Hm).
      exists l, r. split; [lia |]. split; [exact Hr |].
        split; [exact Hp | exact Hm].
  - intro Hin.
    destruct (IH (i + 1) ltac:(lia) Hin) as (l & r & Hl & Hr & Hp & Hm).
    exists l, r. split; [lia |]. split; [exact Hr |].
        split; [exact Hp | exact Hm].
Qed.

Lemma midpoint_bounds (l r : nat) :
  l <= r -> l <= (l + r) / 2 <= r.
Proof.
  intro H. split.
  - apply Nat.div_le_lower_bound; lia.
  - apply Nat.Div0.div_le_upper_bound. lia.
Qed.

(** The scan reports its indexes in strictly increasing order. *)
Lemma scan_sorted (x : list Q) (i_max fuel i : nat) :
  1 <= i -> StronglySorted lt (scipy.scan x i_max fuel i).
Proof.
  revert i. induction fuel as [| fuel IH]; intros i Hi; cbn [scipy.scan];
    [constructor |].
  destruct (i <? i_max); [| constructor].
  destruct (np.ltb (np.item x (i - 1)) (np.item x i)); [| apply IH; lia].
  destruct (look_ahead_spec x i i_max (i_max - (i + 1)) (i + 1))
    as (Hstart & _).
  set (i_ahead := scipy.look_ahead x i i_max (i_max - (i + 1)) (i + 1)) in *.
  destruct (np.ltb (np.item x i_ahead) (np.item x i)); [| apply IH; lia].
  constructor; [apply IH; lia |].
  apply Forall_forall. intros m Hm.
  destruct (scan_plateau x i_max fuel (i_ahead + 1) m ltac:(lia) Hm)
    as (l & r & Hl & _ & (_ & Hlr & _) & ->).
  pose proof (midpoint_bounds l r Hlr).
  pose proof (midpoint_bounds i (i_ahead - 1) ltac:(lia)).
  lia.
Qed.

(** The fuel [local_maxima_1d] gives the scan is enough: more changes
    nothing. *)
Lemma scan_fuel (x : list Q) (i_max fuel fuel' i : nat) :
  i_max - i <= fuel -> i_max - i <= fuel' ->
  scipy.scan x i_max fuel i = scipy.scan x i_max fuel' i.
Proof.
  revert fuel' i. induction fuel as [| fuel IH]; intros fuel' i H H'.
  - destruct fuel' as [| fuel']; [reflexivity |]. simpl.
    destruct (Nat.ltb_spec i i_max); [lia | reflexivity].
  - destruct fuel' as [| fuel'].
    + simpl. destruct (Nat.ltb_spec i i_max); [lia | reflexivity].
    + simpl. destruct (Nat.ltb_spec i i_max); [| reflexivity].
      destruct (look_ahead_spec x i i_max (i_max - (i + 1)) (i + 1))
        as (Hstart & _).
      rewrite (IH fuel' (i + 1)) by lia.
      rewrite (IH fuel' (scipy.look_ahead x i i_max (i_max - (i + 1)) (i + 1)
                         + 1)) by lia.
      reflexivity.
Qed.

(** A sample cannot be the midpoint of a plateau of the slope and of a
    plateau of the negated slope. *)
Lemma plateaus_disjoint (x : list Q) (l1 r1 l2 r2 : nat) :
  plateau x l1 r1 -> plateau (np.negative x) l2 r2 ->
  (l1 + r1) / 2 <> (l2 + r2) / 2.
Proof.
  intros (H1 & Hlr1 & Hup1 & Heq1 & _) (H2 & Hlr2 & Hup2 & Heq2 & _) Hm.
  pose proof (midpoint_bounds l1 r1 Hlr1).
  pose proof (midpoint_bounds l2 r2 Hlr2).
  rewrite !negative_item in Hup2.
  destruct (Nat.lt_trichotomy l1 l2) as [Hlt | [-> | Hgt]].
  - pose proof (Heq1 (l2 - 1) ltac:(lia)) as Ea.
    pose proof (Heq1 l2 ltac:(lia)) as Eb.
    lra.
  - lra.
  - pose proof (Heq2 (l1 - 1) ltac:(lia)) as Ea.
    pose proof (Heq2 l1 ltac:(lia)) as Eb.
    rewrite !negative_item in Ea, Eb.
    lra.
Qed.

Lemma local_maxima_sorted (x : list Q) :
  StronglySorted lt (scipy.local_maxima_1d x).
Proof. apply scan_sorted. lia. Qed.

Lemma local_maxima_disjoint (x : list Q) (m : nat) :
  In m (scipy.local_maxima_1d x) ->
  ~ In m (scipy.local_maxima_1d (np.negative x)).
Proof.
  intros Hpos Hneg.
  apply scan_plateau in Hpos; [| lia]. apply scan_plateau in Hneg; [| lia].
  destruct Hpos as (l1 & r1 & _ & _ & Hp1 & ->).
  destruct Hneg as (l2 & r2 & _ & _ & Hp2 & E).
  exact (plateaus_disjoint x l1 r1 l2 r2 Hp1 Hp2 E).
Qed.

(** Selecting by a mask keeps a sub-list, in order. *)
Lemma select_In {A} (keep : list bool) (a : list A) (v : A) :
  In v (np.select keep a) -> In v a.
Proof.
  revert a. induction keep as [| k keep IH]; intros [| w a]; simpl;
    try contradiction.
  destruct k; simpl; intuition.
Qed.

Lemma select_sorted (keep : list bool) (a : list nat) :
  StronglySorted lt a -> StronglySorted lt (np.select keep a).
Proof.
  revert a. induction keep as [| k keep IH]; intros [| w a] Hs; simpl;
    try constructor.
  apply StronglySorted_inv in Hs. destruct Hs as (Hs & Hall).
  destruct k; [| now apply IH].
  constructor; [now apply IH |].
  rewrite Forall_forall in *. intros v Hv. eapply Hall, select_In, Hv.
Qed.

(** [find_peaks] raises for a distance below one and otherwise returns
    local maxima, in strictly increasing order. *)
Lemma find_peaks_spec (L : Library) (x : list Q) (height : Q)
    (distance : Z) (prominence : Q) :
  (1 <= distance)%Z ->
  exists peaks,
    scipy.find_peaks L x height distance prominence = inr peaks /\
    StronglySorted lt peaks /\
    forall m, In m peaks -> In m (scipy.local_maxima_1d x).
Proof.
  intro Hd. unfold scipy.find_peaks.
  destruct (Z.ltb_spec distance 1); [lia |].
  eexists. split; [reflexivity |]. split.
  - repeat apply select_sorted. apply local_maxima_sorted.
  - intros m Hm. repeat apply select_In in Hm. exact Hm.
Qed.

Lemma find_peaks_inv (L : Library) (x : list Q) (height : Q)
    (distance : Z) (prominence : Q) (peaks : list nat) :
  scipy.find_peaks L x height distance prominence = inr peaks ->
  (1 <= distance)%Z.
Proof.
  unfold scipy.find_peaks.
  destruct (Z.ltb_spec distance 1); [discriminate | lia].
Qed.

(** [sort_index] keeps the rows and, on distinct labels, puts them in
    strictly increasing order. *)
Lemma insert_row_In (e e' : nat * bool) (s : pd.Series nat) :
  In e' (pd.insert_row e s) <-> e' = e \/ In e' s.
Proof.
  induction s as [| a s IH]; simpl.
  - intuition.
  - destruct (fst e <=? fst a); simpl; [intuition |].
    rewrite IH. intuition.
Qed.

Lemma sort_index_In (e : nat * bool) (s : pd.Series nat) :
  In e (pd.sort_index s) <-> In e s.
Proof.
  induction s as [| a s IH]; simpl; [tauto |].
  rewrite insert_row_In, IH. intuition.
Qed.

Lemma index_In {I} (s : pd.Series I) (k : I) :
  In k (pd.index s) <-> exists b, In (k, b) s.
Proof.
  unfold pd.index. rewrite in_map_iff. split.
  - intros ([k' b] & <- & H). now exists b.
  - intros (b & H). now exists (k, b).
Qed.

Lemma insert_row_sorted (e : nat * bool) (s : pd.Series nat) :
  StronglySorted lt (pd.index s) ->
  ~ In (fst e) (pd.index s) ->
  StronglySorted lt (pd.index (pd.insert_row e s)).
Proof.
  induction s as [| a s IH]; intros Hs Hnot; simpl.
  - repeat constructor.
  - simpl in Hs. apply StronglySorted_inv in Hs. destruct Hs as (Hs & Hall).
    assert (Hne : fst e <> fst a) by (intro E; apply Hnot; now left).
    destruct (Nat.leb_spec (fst e) (fst a)) as [Hle | Hgt]; simpl.
    + constructor; [now constructor |].
      constructor; [lia |].
      eapply Forall_impl; [| exact Hall]. simpl. intros; lia.
    + constructor.
      * apply IH; [assumption |]. intro H. apply Hnot. now right.
      * apply Forall_forall. intros k Hk.
        apply (proj1 (index_In _ _)) in Hk. destruct Hk as (b & Hk).
        apply (proj1 (insert_row_In _ _ _)) in Hk. destruct Hk as [E | Hk].
        -- subst e. simpl in Hgt. lia.
        -- rewrite Forall_forall in Hall. apply Hall.
           apply (proj2 (index_In s k)). now exists b.
Qed.

Lemma sort_index_sorted (s : pd.Series nat) :
  NoDup (pd.index s) -> StronglySorted lt (pd.index (pd.sort_index s)).
Proof.
  induction s as [| a s IH]; simpl; intro Hnd; [constructor |].
  inversion Hnd as [| k l Hnot Hnd']; subst.
  apply insert_row_sorted; [now apply IH |].
  intro H. apply Hnot.
  apply (proj1 (index_In _ _)) in H. destruct H as (b & H).
  apply (proj1 (sort_index_In _ _)) in H.
  apply (proj2 (index_In s (fst a))). now exists b.
Qed.

Lemma sorted_NoDup (l : list nat) : StronglySorted lt l -> NoDup l.
Proof.
  induction 1 as [| a l Hs IH Hall]; constructor; [| assumption].
  intro Hin. rewrite Forall_forall in Hall. specialize (Hall a Hin). lia.
Qed.

(** The Series [find_edges] builds before sorting: the falling edges
    labelled [false], then the rising edges labelled [true]. *)
Lemma make_repeat {I} (index : list I) (b : bool) :
  pd.make (repeat b (length index)) index = map (fun i => (i, b)) index.
Proof.
  unfold pd.make. induction index as [| i index IH]; simpl;
    [reflexivity | now rewrite IH].
Qed.

Lemma make_app {I} (v1 v2 : list bool) (i1 i2 : list I) :
  length v1 = length i1 ->
  pd.make (v1 ++ v2) (i1 ++ i2) = pd.make v1 i1 ++ pd.make v2 i2.
Proof.
  unfold pd.make. revert v1.
  induction i1 as [| i i1 IH]; intros [| v v1] H; try discriminate;
    simpl; [reflexivity |].
  rewrite IH; [reflexivity |]. simpl in H. lia.
Qed.

Lemma make_edges (falling rising : list nat) :
  pd.make (repeat false (length falling) ++ repeat true (length rising))
    (falling ++ rising)
  = map (fun i => (i, false)) falling ++ map (fun i => (i, true)) rising.
Proof.
  rewrite make_app by apply repeat_length.
  now rewrite !make_repeat.
Qed.

Lemma find_edges_run (L : Library) (slope : list Q) (p : FindEdgeParams)
    (falling rising : list nat) :
  scipy.find_peaks L (np.negative slope) (minimum_negative_height p)
    (minimum_falling_edge_distance p) (minimum_negative_prominence p)
  = inr falling ->
  scipy.find_peaks L slope (minimum_positive_height p)
    (minimum_rising_edge_distance p) (minimum_positive_prominence p)
  = inr rising ->
  find_edges L slope p
  = ret (pd.sort_index
           (map (fun i => (i, false)) falling
              ++ map (fun i => (i, true)) rising)).
Proof.
  intros Hf Hr. unfold find_edges. rewrite Hf, Hr.
  unfold call. fold (ret falling). rewrite bind_ret.
  fold (ret rising). rewrite bind_ret.
  now rewrite make_edges.
Qed.

Lemma find_edges_inv (L : Library) (slope : list Q) (p : FindEdgeParams)
    (edges : pd.Series nat) :
  outcome (find_edges L slope p) = inr edges ->
  (1 <= minimum_falling_edge_distance p)%Z /\
  (1 <= minimum_rising_edge_distance p)%Z.
Proof.
  unfold find_edges. rewrite !outcome_bind. unfold call, outcome at 1, snd.
  destruct (scipy.find_peaks L (np.negative slope) _ _ _) as [e | falling]
    eqn:Hf; [discriminate |].
  rewrite outcome_bind. unfold outcome at 1, snd.
  destruct (scipy.find_peaks L slope _ _ _) as [e | rising] eqn:Hr;
    [discriminate |].
  intros _. split; eapply find_peaks_inv; eassumption.
Qed.

(** The edges [find_edges] returns, when both distances are at least
    one. *)
Lemma find_edges_spec (L : Library) (slope : list Q) (p : FindEdgeParams) :
  (1 <= minimum_falling_edge_distance p)%Z ->
  (1 <= minimum_rising_edge_distance p)%Z ->
  exists edges,
    find_edges L slope p = ret edges /\
    StronglySorted lt (pd.index edges) /\
    (forall i, In (i, false) edges ->
               In i (scipy.local_maxima_1d (np.negative slope))) /\
    (forall i, In (i, true) edges -> In i (scipy.local_maxima_1d slope)).
Proof.
  intros Hdf Hdr.
  destruct (find_peaks_spec L (np.negative slope) (minimum_negative_height p)
              _ (minimum_negative_prominence p) Hdf)
    as (falling & Hf & Hfs & Hfm).
  destruct (find_peaks_spec L slope (minimum_positive_height p)
              _ (minimum_positive_prominence p) Hdr)
    as (rising & Hr & Hrs & Hrm).
  eexists. split; [exact (find_edges_run L slope p falling rising Hf Hr) |].
  assert (Hrows : forall i b,
             In (i, b)
               (map (fun i => (i, false)) falling
                  ++ map (fun i => (i, true)) rising)
             <-> (b = false /\ In i falling) \/ (b = true /\ In i rising)).
  { intros i b. rewrite in_app_iff, !in_map_iff. split.
    - intros [(k & [= <- <-] & H) | (k & [= <- <-] & H)]; auto.
    - intros [(-> & H) | (-> & H)]; [left | right]; now exists i. }
  split; [| split].
  - apply sort_index_sorted.
    unfold pd.index. rewrite map_app, !map_map. simpl. rewrite !map_id.
    apply NoDup_app; [now apply sorted_NoDup | now apply sorted_NoDup |].
    intros i Hi1 Hi2.
    exact (local_maxima_disjoint slope i (Hrm i Hi2) (Hfm i Hi1)).
  - intros i Hi. apply (proj1 (sort_index_In _ _)) in Hi.
    apply (proj1 (Hrows _ _)) in Hi.
    destruct Hi as [(_ & H) | (E & _)]; [auto | discriminate].
  - intros i Hi. apply (proj1 (sort_index_In _ _)) in Hi.
    apply (proj1 (Hrows _ _)) in Hi.
    destruct Hi as [(E & _) | (_ & H)]; [discriminate | auto].
Qed.

(** C2.  Whatever the slope and the height, prominence and distance
    parameters, the Edge Set [find_edges] returns has strictly increasing
    offsets, hence no offset twice, and no offset is both a falling and a
    rising edge.  [find_edges] returns whenever both distances are at least
    one; below one [find_peaks] rejects the distance and nothing is
    returned. *)
Theorem find_edges_offsets_strictly_increasing (L : Library)
    (slope : list Q) (p : FindEdgeParams) :
  ((1 <= minimum_falling_edge_distance p)%Z ->
   (1 <= minimum_rising_edge_distance p)%Z ->
   exists edges, outcome (find_edges L slope p) = inr edges) /\
  forall edges,
    outcome (find_edges L slope p) = inr edges ->
    StronglySorted lt (pd.index edges) /\
    NoDup (pd.index edges) /\
    forall offset, ~ (In (offset, false) edges /\ In (offset, true) edges).
Proof.
  split.
  - intros Hdf Hdr.
    destruct (find_edges_spec L slope p Hdf Hdr) as (edges & Hrun & _).
    exists edges. now rewrite Hrun.
  - intros edges Hout.
    destruct (find_edges_inv L slope p edges Hout) as (Hdf & Hdr).
    destruct (find_edges_spec L slope p Hdf Hdr)
      as (edges' & Hrun & Hsorted & Hfalling & Hrising).
    rewrite Hrun in Hout. injection Hout as <-.
    split; [assumption |]. split; [now apply sorted_NoDup |].
    intros offset (Hf & Hr).
    exact (local_maxima_disjoint slope offset (Hrising _ Hr)
             (Hfalling _ Hf)).
Qed.

Lemma find_edges_offsets_strictly_increasing_witness :
  StronglySorted lt [2; 4; 6; 8; 10; 12] /\
  NoDup [2; 4; 6; 8; 10; 12] /\
  forall offset,
    ~ (In (offset, false)
         [(2, false); (4, true); (6, false); (8, true); (10, false);
          (12, true)]
       /\ In (offset, true)
            [(2, false); (4, true); (6, false); (8, true); (10, false);
             (12, true)]).
Proof.
  apply (proj2 (find_edges_offsets_strictly_increasing Example.library
                  Example.slope
                  (find_edge_params Example.args 4 (-2) 2))
           [(2, false); (4, true); (6, false); (8, true); (10, false);
            (12, true)]).
  reflexivity.
Defined.

(** ** The two detection checks *)

Lemma quiet_bind {A B} (m : Run A) (f : A -> Run B) :
  quiet m -> (forall a, quiet (f a)) -> quiet (bind m f).
Proof.
  unfold quiet. intros Hm Hf.
  rewrite trace_bind, stdout_rows_app, Hm.
  destruct (outcome m); [reflexivity | apply Hf].
Qed.

Lemma clean_bind {A B} (m : Run A) (f : A -> Run B) :
  quiet m -> (forall a, clean (f a)) -> clean (bind m f).
Proof.
  unfold quiet, clean. intros Hm Hf e He.
  rewrite outcome_bind in He.
  rewrite trace_bind, stdout_rows_app, Hm.
  destruct (outcome m); [reflexivity | now apply (Hf a e)].
Qed.

Lemma quiet_ret {A} (a : A) : quiet (ret a).
Proof. reflexivity. Qed.

Lemma quiet_raise {A} (e : Exception) : quiet (@raise A e).
Proof. reflexivity. Qed.

Lemma quiet_call {A} (r : Exception + A) : quiet (call r).
Proof. reflexivity. Qed.

Lemma quiet_print (d : Diagnostic) : quiet (print d).
Proof. reflexivity. Qed.

Lemma quiet_assert (c : bool) : quiet (assert c).
Proof. now destruct c. Qed.

Lemma quiet_py_div (a b : Q) : quiet (np.py_div a b).
Proof. unfold np.py_div. now destruct (Qeq_bool b 0). Qed.

Lemma quiet_true_divide (a b : Q) : quiet (np.true_divide a b).
Proof. unfold np.true_divide. now destruct (Qeq_bool b 0). Qed.

Lemma quiet_max (x : list Q) : quiet (np.max x).
Proof. now destruct x. Qed.

Lemma quiet_min (x : list Q) : quiet (np.min x).
Proof. now destruct x. Qed.

Lemma quiet_maybe_write_wavfile args rate file samples normalize :
  quiet (maybe_write_wavfile args rate file samples normalize).
Proof. apply maybe_write_wavfile_rows. Qed.

Lemma quiet_resolve_polarity {I : Type} (edges : pd.Series I) :
  quiet (resolve_polarity edges).
Proof. apply resolve_polarity_quiet. Qed.

Lemma quiet_timestamps (index : list nat) (start rate : Q) :
  quiet (timestamps index start rate).
Proof.
  unfold timestamps. destruct index; [reflexivity |].
  now destruct (Qeq_bool rate 0).
Qed.

Create HintDb quiet.

#[local] Hint Resolve quiet_ret quiet_raise quiet_call quiet_print
  quiet_assert quiet_py_div quiet_true_divide quiet_max quiet_min
  quiet_maybe_write_wavfile quiet_timestamps : quiet.

(** One step through a run built from binds, pairs and branches. *)
Ltac quiet_step :=
  match goal with
  | |- quiet (bind _ _) => apply quiet_bind; [| intro]
  | |- quiet (let (_, _) := ?x in _) => destruct x
  | |- quiet (match ?x with _ => _ end) => destruct x
  | |- quiet (if ?c then _ else _) => destruct c
  | |- quiet _ => solve [auto with quiet]
  end.

Lemma quiet_find_edges (L : Library) (slope : list Q) (p : FindEdgeParams) :
  quiet (find_edges L slope p).
Proof. unfold find_edges. repeat quiet_step. Qed.

Lemma quiet_until_boundary_check (L : Library) (args : Args) (spec : Spec)
    (recording : Recording) :
  quiet (until_boundary_check L args spec recording).
Proof.
  unfold until_boundary_check, load_inputs, downsample, downsampling,
    generate_downsampling_derivative_kernel, correlate_boundaries,
    generate_boundaries_reference_samples, find_boundary_candidates,
    boundary_candidates.
  repeat quiet_step.
Qed.

Lemma quiet_until_edge_check (L : Library) (args : Args)
    (s : AtBoundaryCheck) :
  quiet (until_edge_check L args s).
Proof.
  unfold until_edge_check, trim, upsample, upsampling, detect_edges.
  destruct (test_signal_bounds _ _).
  repeat first [apply quiet_find_edges | quiet_step].
Qed.

Lemma clean_output_stage (args : Args) (s : AtEdgeCheck) :
  clean (output_stage args s).
Proof.
  unfold output_stage.
  apply clean_bind; [apply quiet_maybe_write_wavfile | intros _].
  apply clean_bind; [apply quiet_resolve_polarity | intro edges].
  unfold write_output.
  apply clean_bind; [apply quiet_timestamps | intro index].
  intros e He. discriminate He.
Qed.

Lemma clean_analyze_recording (L : Library) (args : Args) (spec : Spec)
    (recording : Recording) :
  clean (analyze_recording L args spec recording).
Proof.
  unfold analyze_recording.
  apply clean_bind; [apply quiet_until_boundary_check | intro s1].
  apply clean_bind; [apply quiet_assert | intros _].
  apply clean_bind; [apply quiet_until_edge_check | intro s2].
  apply clean_bind; [apply quiet_assert | intros _].
  apply clean_output_stage.
Qed.

(** The run at its two checks. *)
Lemma boundary_check_fails (L : Library) (args : Args) (spec : Spec)
    (recording : Recording) (s1 : AtBoundaryCheck) :
  outcome (until_boundary_check L args spec recording) = inr s1 ->
  length (boundary_candidate_indexes s1) < 2 ->
  outcome (analyze_recording L args spec recording) = inl AssertionError.
Proof.
  intros H1 Hfew. unfold analyze_recording.
  rewrite outcome_bind, H1, outcome_bind.
  destruct (Nat.ltb_spec 1 (length (boundary_candidate_indexes s1)));
    [lia | reflexivity].
Qed.

Lemma edge_check_fails (L : Library) (args : Args) (spec : Spec)
    (recording : Recording) (s1 : AtBoundaryCheck) (s2 : AtEdgeCheck) :
  outcome (until_boundary_check L args spec recording) = inr s1 ->
  2 <= length (boundary_candidate_indexes s1) ->
  outcome (until_edge_check L args s1) = inr s2 ->
  ec_edges s2 = [] ->
  outcome (analyze_recording L args spec recording) = inl AssertionError.
Proof.
  intros H1 Hmany H2 Hempty. unfold analyze_recording.
  rewrite outcome_bind, H1, outcome_bind.
  destruct (Nat.ltb_spec 1 (length (boundary_candidate_indexes s1)));
    [| lia].
  cbn [assert outcome ret snd].
  rewrite outcome_bind, H2, outcome_bind, Hempty. reflexivity.
Qed.

Lemma checks_pass (L : Library) (args : Args) (spec : Spec)
    (recording : Recording) (s1 : AtBoundaryCheck) (s2 : AtEdgeCheck) :
  outcome (until_boundary_check L args spec recording) = inr s1 ->
  2 <= length (boundary_candidate_indexes s1) ->
  outcome (until_edge_check L args s1) = inr s2 ->
  ec_edges s2 <> [] ->
  analyze_recording L args spec recording
  = (trace (until_boundary_check L args spec recording)
       ++ trace (until_edge_check L args s1)
       ++ trace (output_stage args s2),
     outcome (output_stage args s2)).
Proof.
  intros H1 Hmany H2 Hedges. unfold analyze_recording.
  assert (Hc1 : assert (1 <? length (boundary_candidate_indexes s1))
                = ret tt).
  { destruct (Nat.ltb_spec 1 (length (boundary_candidate_indexes s1)));
      [reflexivity | lia]. }
  assert (Hc2 : assert (0 <? length (pd.index (ec_edges s2))) = ret tt).
  { unfold pd.index. rewrite length_map.
    destruct (ec_edges s2); [contradiction | reflexivity]. }
  rewrite (bind_run _ _ s1 H1), Hc1, bind_ret.
  rewrite (bind_run _ _ s2 H2), Hc2, bind_ret.
  reflexivity.
Qed.

(** C6.  A run of [analyze_recording] that ends in an exception has a
    non-zero exit status and has written no row to the primary output.  It
    ends so, at the first check, whenever there are fewer than two boundary
    candidates and, at the second, whenever the Edge Set is empty.  In every
    other case both checks pass, and the run goes on into the output stage:
    its outcome is that of the output stage, its trace the traces of the
    three segments. *)
Theorem fatal_detection_failures (L : Library) (args : Args) (spec : Spec)
    (recording : Recording) :
  let run := analyze_recording L args spec recording in
  (forall e, outcome run = inl e ->
             exit_status run <> 0%Z /\ stdout_rows (trace run) = []) /\
  (forall s1,
      outcome (until_boundary_check L args spec recording) = inr s1 ->
      length (boundary_candidate_indexes s1) < 2 ->
      outcome run = inl AssertionError) /\
  (forall s1 s2,
      outcome (until_boundary_check L args spec recording) = inr s1 ->
      2 <= length (boundary_candidate_indexes s1) ->
      outcome (until_edge_check L args s1) = inr s2 ->
      ec_edges s2 = [] ->
      outcome run = inl AssertionError) /\
  (forall s1 s2,
      outcome (until_boundary_check L args spec recording) = inr s1 ->
      2 <= length (boundary_candidate_indexes s1) ->
      outcome (until_edge_check L args s1) = inr s2 ->
      ec_edges s2 <> [] ->
      outcome run = outcome (output_stage args s2) /\
      trace run
      = trace (until_boundary_check L args spec recording)
          ++ trace (until_edge_check L args s1)
          ++ trace (output_stage args s2)).
Proof.
  intro run. split; [| split; [| split]].
  - intros e He. split.
    + unfold exit_status. rewrite He. discriminate.
    + exact (clean_analyze_recording L args spec recording e He).
  - intros s1 H1 Hfew. exact (boundary_check_fails _ _ _ _ s1 H1 Hfew).
  - intros s1 s2 H1 Hmany H2 Hempty.
    exact (edge_check_fails _ _ _ _ s1 s2 H1 Hmany H2 Hempty).
  - intros s1 s2 H1 Hmany H2 Hedges. unfold run.
    rewrite (checks_pass _ _ _ _ s1 s2 H1 Hmany H2 Hedges).
    split; reflexivity.
Qed.

Lemma fatal_detection_failures_witness :
  (exit_status
     (analyze_recording Example.library Example.strict_args Example.spec
        Example.lone_burst) <> 0%Z
   /\ stdout_rows
        (trace
           (analyze_recording Example.library Example.strict_args Example.spec
              Example.lone_burst)) = [])
  /\ outcome
       (analyze_recording Example.library Example.strict_args Example.spec
          Example.lone_burst) = inl AssertionError
  /\ outcome
       (analyze_recording Example.library Example.args Example.spec
          Example.flat) = inl AssertionError
  /\ outcome
       (analyze_recording Example.library Example.args Example.spec
          Example.recording) = inr tt.
Proof.
  split; [| split; [| split]].
  - apply (proj1 (fatal_detection_failures Example.library
                    Example.strict_args Example.spec Example.lone_burst)
             AssertionError).
    reflexivity.
  - apply (proj1 (proj2 (fatal_detection_failures Example.library
                           Example.strict_args Example.spec
                           Example.lone_burst))
             {| bc_sample_rate := 4 / 2;
                bc_slope := wav_samples Example.lone_burst;
                bc_reference_size := 3;
                boundary_candidate_indexes := [2] |});
      [reflexivity | simpl; lia].
  - apply (proj1 (proj2 (proj2 (fatal_detection_failures Example.library
                                  Example.args Example.spec Example.flat)))
             {| bc_sample_rate := 4 / 2;
                bc_slope := wav_samples Example.flat;
                bc_reference_size := 3;
                boundary_candidate_indexes := [0; 1; 2; 3] |}
             {| ec_upsampled :=
                  {| upsampling_ratio := np.ceil (1 / (1 # 4) / (4 / 2));
                     upsampled_sample_rate :=
                       4 / 2 * np.ceil (1 / (1 # 4) / (4 / 2));
                     upsampled_start_index :=
                       np.of_nat 0 * np.ceil (1 / (1 # 4) / (4 / 2));
                     upsampled_end_index :=
                       np.of_nat 6 * np.ceil (1 / (1 # 4) / (4 / 2)) |};
                ec_slope := wav_samples Example.flat;
                ec_edges := [] |});
      [reflexivity | simpl; lia | reflexivity | reflexivity].
  - rewrite (proj1
               (proj2 (proj2 (proj2 (fatal_detection_failures Example.library
                                       Example.args Example.spec
                                       Example.recording)))
                  {| bc_sample_rate := 4 / 2;
                     bc_slope := Example.slope;
                     bc_reference_size := 3;
                     boundary_candidate_indexes :=
                       [0; 1; 3; 5; 7; 9; 11; 12] |}
                  {| ec_upsampled :=
                       {| upsampling_ratio :=
                            np.ceil (1 / (1 # 4) / (4 / 2));
                          upsampled_sample_rate :=
                            4 / 2 * np.ceil (1 / (1 # 4) / (4 / 2));
                          upsampled_start_index :=
                            np.of_nat 0 * np.ceil (1 / (1 # 4) / (4 / 2));
                          upsampled_end_index :=
                            np.of_nat 15 * np.ceil (1 / (1 # 4) / (4 / 2)) |};
                     ec_slope := Example.slope;
                     ec_edges :=
                       [(2, false); (4, true); (6, false); (8, true);
                        (10, false); (12, true)] |}
                  eq_refl ltac:(simpl; lia) eq_refl ltac:(discriminate)));
      reflexivity.
Defined.

(** C7.  When the first and the last edge have the same polarity, the
    resolver prints its warning and returns the Edge Set as it is, bits and
    offsets; the run then ends normally, with the warning on the diagnostics
    channel and, on the primary output, the whole table: one row per edge,
    with the unresolved polarity. *)
Theorem ambiguous_polarity_is_not_fatal (L : Library) (args : Args)
    (spec : Spec) (recording : Recording)
    (s1 : AtBoundaryCheck) (s2 : AtEdgeCheck) (polarity : bool) :
  outcome (until_boundary_check L args spec recording) = inr s1 ->
  2 <= length (boundary_candidate_indexes s1) ->
  outcome (until_edge_check L args s1) = inr s2 ->
  outcome (pd.iloc_first (ec_edges s2)) = inr polarity ->
  outcome (pd.iloc_last (ec_edges s2)) = inr polarity ->
  ~ (upsampled_sample_rate (ec_upsampled s2) == 0)%Q ->
  let run := analyze_recording L args spec recording in
  resolve_polarity (ec_edges s2)
  = ([Stderr (WarningSamePolarity polarity)], inr (ec_edges s2)) /\
  outcome run = inr tt /\
  exit_status run = 0%Z /\
  In (WarningSamePolarity polarity) (stderr_lines (trace run)) /\
  stdout_rows (trace run)
  = map (fun e =>
           (((np.of_nat (fst e) + upsampled_start_index (ec_upsampled s2))
             / upsampled_sample_rate (ec_upsampled s2))%Q, snd e))
      (ec_edges s2).
Proof.
  intros H1 Hmany H2 Hf Hl Hrate run.
  apply iloc_first_ret in Hf. apply iloc_last_ret in Hl.
  assert (Hrun : resolve_polarity (ec_edges s2)
                 = ([Stderr (WarningSamePolarity polarity)],
                    inr (ec_edges s2))).
  { rewrite (resolve_polarity_run _ polarity polarity Hf Hl).
    now rewrite Bool.eqb_reflx. }
  assert (Hres : outcome (resolve_polarity (ec_edges s2)) = inr (ec_edges s2))
    by now rewrite Hrun.
  assert (Hedges : ec_edges s2 <> []).
  { intro E. rewrite E in Hf. discriminate Hf. }
  destruct (output_stage_run args s2 _ Hres Hrate) as (Hout & Hrows & Hlines).
  unfold run, exit_status.
  rewrite (checks_pass _ _ _ _ s1 s2 H1 Hmany H2 Hedges).
  cbn [outcome trace fst snd]. rewrite Hout.
  rewrite !stdout_rows_app, !stderr_lines_app, Hrows, Hlines, Hrun.
  rewrite (quiet_until_boundary_check L args spec recording).
  rewrite (quiet_until_edge_check L args s1).
  repeat split; auto.
  rewrite !in_app_iff. right. right. now left.
Qed.

Lemma ambiguous_polarity_is_not_fatal_witness :
  let run :=
    analyze_recording Example.library Example.args Example.spec
      Example.lone_burst in
  resolve_polarity [(1, false); (2, true); (3, false)]
  = ([Stderr (WarningSamePolarity false)],
     inr [(1, false); (2, true); (3, false)]) /\
  outcome run = inr tt /\
  exit_status run = 0%Z /\
  In (WarningSamePolarity false) (stderr_lines (trace run)) /\
  stdout_rows (trace run)
  = map (fun e => (((np.of_nat (fst e) + np.of_nat 1 * 2) / (4 / 2 * 2))%Q,
                   snd e))
      [(1, false); (2, true); (3, false)].
Proof.
  apply (ambiguous_polarity_is_not_fatal Example.library Example.args
           Example.spec Example.lone_burst
           {| bc_sample_rate := 4 / 2;
              bc_slope := wav_samples Example.lone_burst;
              bc_reference_size := 3;
              boundary_candidate_indexes := [1; 2; 3] |}
           {| ec_upsampled :=
                {| upsampling_ratio := 2;
                   upsampled_sample_rate := 4 / 2 * 2;
                   upsampled_start_index := np.of_nat 1 * 2;
                   upsampled_end_index := np.of_nat 6 * 2 |};
              ec_slope := [0; -2; 2; -2; 0]%Q;
              ec_edges := [(1, false); (2, true); (3, false)] |}
           false);
    [reflexivity | simpl; lia | reflexivity | reflexivity | reflexivity
     | intro H; discriminate H].
Defined.

(** ** The table of a whole run *)

Lemma bind_inr {A B} (m : Run A) (f : A -> Run B) (b : B) :
  outcome (bind m f) = inr b ->
  exists a, outcome m = inr a /\ outcome (f a) = inr b.
Proof.
  rewrite outcome_bind. destruct (outcome m) as [e | a]; [discriminate |].
  intro H. now exists a.
Qed.

Lemma find_edges_sorted (L : Library) (slope : list Q) (p : FindEdgeParams)
    (edges : pd.Series nat) :
  outcome (find_edges L slope p) = inr edges ->
  StronglySorted lt (pd.index edges).
Proof.
  intro Hout.
  destruct (find_edges_inv L slope p edges Hout) as (Hdf & Hdr).
  destruct (find_edges_spec L slope p Hdf Hdr) as (edges' & Hrun & Hs & _).
  rewrite Hrun in Hout. now injection Hout as <-.
Qed.

Lemma detect_edges_sorted (L : Library) (args : Args) (rate : Q)
    (slope : list Q) (edges : pd.Series nat) :
  outcome (detect_edges L args rate slope) = inr edges ->
  StronglySorted lt (pd.index edges).
Proof.
  unfold detect_edges. intro H.
  apply bind_inr in H. destruct H as (slope_min & _ & H).
  apply bind_inr in H. destruct H as (slope_max & _ & H).
  apply bind_inr in H. destruct H as (_ & _ & H).
  apply bind_inr in H. destruct H as (_ & _ & H).
  apply bind_inr in H. destruct H as (found & Hfound & H).
  apply bind_inr in H. destruct H as (_ & _ & H).
  injection H as <-.
  exact (find_edges_sorted _ _ _ _ Hfound).
Qed.

(** The Edge Set that reaches the second check has strictly increasing
    offsets. *)
Lemma until_edge_check_sorted (L : Library) (args : Args)
    (s1 : AtBoundaryCheck) (s2 : AtEdgeCheck) :
  outcome (until_edge_check L args s1) = inr s2 ->
  StronglySorted lt (pd.index (ec_edges s2)).
Proof.
  unfold until_edge_check. intro H.
  apply bind_inr in H. destruct H as ([[start stop] trimmed] & _ & H).
  apply bind_inr in H. destruct H as ([u upsampled] & _ & H).
  apply bind_inr in H. destruct H as (edges & Hedges & H).
  injection H as <-.
  exact (detect_edges_sorted _ _ _ _ _ Hedges).
Qed.

(** C8.  A run that passes both checks writes one row per edge of the final
    Edge Set, in the order of the Edge Set; the timestamp of a row is the
    offset of its edge plus the start of the test signal, both in final,
    upsampled coordinates, over the final sample rate; with that rate
    positive the timestamps increase strictly down the table. *)
Theorem output_rows_timestamped_ascending (L : Library) (args : Args)
    (spec : Spec) (recording : Recording)
    (s1 : AtBoundaryCheck) (s2 : AtEdgeCheck) :
  outcome (until_boundary_check L args spec recording) = inr s1 ->
  2 <= length (boundary_candidate_indexes s1) ->
  outcome (until_edge_check L args s1) = inr s2 ->
  ec_edges s2 <> [] ->
  (0 < upsampled_sample_rate (ec_upsampled s2))%Q ->
  let run := analyze_recording L args spec recording in
  exists final_edges,
    outcome (resolve_polarity (ec_edges s2)) = inr final_edges /\
    pd.index final_edges = pd.index (ec_edges s2) /\
    outcome run = inr tt /\
    stdout_rows (trace run)
    = map (fun e =>
             (((np.of_nat (fst e) + upsampled_start_index (ec_upsampled s2))
               / upsampled_sample_rate (ec_upsampled s2))%Q, snd e))
        final_edges /\
    length (stdout_rows (trace run)) = length final_edges /\
    StronglySorted Qlt (map fst (stdout_rows (trace run))).
Proof.
  intros H1 Hmany H2 Hne Hrate run.
  pose proof (until_edge_check_sorted L args s1 s2 H2) as Hsorted.
  destruct (resolve_polarity_cases (ec_edges s2) Hne)
    as (final & Hres & Hcase).
  assert (Hindex : pd.index final = pd.index (ec_edges s2))
    by (destruct Hcase as [-> | ->]; [| rewrite invert_index]; reflexivity).
  assert (Hrate0 : ~ (upsampled_sample_rate (ec_upsampled s2) == 0)%Q)
    by (intro E; rewrite E in Hrate; discriminate).
  destruct (output_stage_run args s2 final Hres Hrate0) as (Hout & Hrows & _).
  assert (Hrun : stdout_rows (trace run)
                 = design_table final
                     (upsampled_start_index (ec_upsampled s2))
                     (upsampled_sample_rate (ec_upsampled s2))).
  { unfold run. rewrite (checks_pass _ _ _ _ s1 s2 H1 Hmany H2 Hne).
    cbn [trace fst]. rewrite !stdout_rows_app, Hrows.
    rewrite (quiet_until_boundary_check L args spec recording).
    now rewrite (quiet_until_edge_check L args s1). }
  exists final. rewrite Hrun.
  split; [assumption |]. split; [assumption |]. split.
  { unfold run. now rewrite (checks_pass _ _ _ _ s1 s2 H1 Hmany H2 Hne). }
  split; [reflexivity |]. split.
  - unfold design_table. now rewrite length_map.
  - apply design_table_sorted; [assumption |]. now rewrite Hindex.
Qed.

Lemma output_rows_timestamped_ascending_witness :
  let run :=
    analyze_recording Example.library Example.args Example.spec
      Example.recording in
  let edges :=
    [(2, false); (4, true); (6, false); (8, true); (10, false); (12, true)] in
  exists final_edges,
    outcome (resolve_polarity edges) = inr final_edges /\
    pd.index final_edges = pd.index edges /\
    outcome run = inr tt /\
    stdout_rows (trace run)
    = map (fun e => (((np.of_nat (fst e) + np.of_nat 0 * 2) / (4 / 2 * 2))%Q,
                     snd e))
        final_edges /\
    length (stdout_rows (trace run)) = length final_edges /\
    StronglySorted Qlt (map fst (stdout_rows (trace run))).
Proof.
  apply (output_rows_timestamped_ascending Example.library Example.args
           Example.spec Example.recording
           {| bc_sample_rate := 4 / 2;
              bc_slope := Example.slope;
              bc_reference_size := 3;
              boundary_candidate_indexes := [0; 1; 3; 5; 7; 9; 11; 12] |}
           {| ec_upsampled :=
                {| upsampling_ratio := 2;
                   upsampled_sample_rate := 4 / 2 * 2;
                   upsampled_start_index := np.of_nat 0 * 2;
                   upsampled_end_index := np.of_nat 15 * 2 |};
              ec_slope := Example.slope;
              ec_edges :=
                [(2, false); (4, true); (6, false); (8, true); (10, false);
                 (12, true)] |});
    [reflexivity | simpl; lia | reflexivity | discriminate | reflexivity].
Defined.

(** * Further properties of the script *)

(** ** Before any processing *)

(** An even number of boundary frames is rejected by the first statement
    of [analyze_recording]: nothing is printed, no library routine is
    called, nothing is written. *)
Theorem even_boundaries_signal_frames_rejected (L : Library) (args : Args)
    (spec : Spec) (recording : Recording) :
  (boundaries_signal_frames args mod 2 = 0)%Z ->
  analyze_recording L args spec recording = ([], inl AssertionError).
Proof.
  intro Heven.
  unfold analyze_recording, until_boundary_check, load_inputs.
  rewrite (proj2 (Z.eqb_eq _ _) Heven). reflexivity.
Qed.

Lemma even_boundaries_signal_frames_rejected_witness :
  analyze_recording Example.library
    {| min_edge_separation_seconds := 1 # 2;
       boundaries_signal_frames := 10;
       boundaries_score_threshold_ratio := 1 # 2;
       timestamp_resolution_seconds := 1 # 4;
       minimum_negative_slope_peak_height_ratio := 3 # 10;
       minimum_positive_slope_peak_height_ratio := 3 # 10;
       minimum_negative_slope_peak_prominence_ratio := 3 # 10;
       minimum_positive_slope_peak_prominence_ratio := 3 # 10;
       output_file := fun _ => true |}
    Example.spec Example.recording
  = ([], inl AssertionError).
Proof.
  apply even_boundaries_signal_frames_rejected. reflexivity.
Defined.

Lemma int_of_Z (z : Z) : np.int (inject_Z z) = z.
Proof.
  unfold np.int. destruct (Qle_bool 0 (inject_Z z));
    [apply Qfloor_Z | apply Qceiling_Z].
Qed.

Lemma tile_length (reps : nat) :
  length (np.tile_false_true reps) = 2 * reps.
Proof. induction reps as [| reps IH]; simpl; [reflexivity | lia]. Qed.

Lemma tile_nth (reps i : nat) :
  i < 2 * reps -> nth i (np.tile_false_true reps) false = Nat.odd i.
Proof.
  revert i. induction reps as [| reps IH]; intros i Hi; [lia |].
  destruct i as [| [| i]]; [reflexivity | reflexivity |].
  cbn [np.tile_false_true nth]. rewrite IH by lia.
  now rewrite Nat.odd_succ_succ.
Qed.

Lemma nth_firstn {A} (l : list A) (n i : nat) (d : A) :
  i < n -> nth i (firstn n l) d = nth i l d.
Proof.
  revert n i. induction l as [| a l IH]; intros [| n] [| i] Hi; simpl;
    try lia; try reflexivity.
  apply IH. lia.
Qed.

Lemma last_nth {A} (l : list A) (d : A) :
  last l d = nth (length l - 1) l d.
Proof.
  induction l as [| a [| b l] IH]; try reflexivity.
  change (last (a :: b :: l) d) with (last (b :: l) d). rewrite IH.
  cbn [length nth]. now rewrite !Nat.sub_succ, Nat.sub_0_r.
Qed.

(** The frame pattern of the boundaries reference signal: for a frame count
    [n >= 0] the generator is handed exactly [n] frames that alternate from
    black; when [n] is odd the pattern begins and ends on the same, black,
    frame.  No count from zero up makes the tiling fail. *)
Theorem boundaries_reference_pattern (L : Library)
    (frame_count fps_num fps_den : Z) (sample_rate : Q) :
  (0 <= frame_count)%Z ->
  exists pattern,
    generate_boundaries_reference_samples L frame_count fps_num fps_den
      sample_rate
    = call (generate_fake_samples L pattern fps_num fps_den sample_rate) /\
    length pattern = Z.to_nat frame_count /\
    (forall i, i < Z.to_nat frame_count ->
               nth i pattern true = Nat.odd i) /\
    ((frame_count mod 2 = 1)%Z ->
     hd true pattern = false /\ last pattern true = false).
Proof.
  intro Hfc. unfold generate_boundaries_reference_samples.
  set (reps := np.int (np.ceil (inject_Z frame_count / 2)%Q)).
  assert (Hreps : (0 <= reps /\ frame_count <= 2 * reps)%Z).
  { unfold reps, np.ceil. rewrite int_of_Z.
    unfold Qceiling, Qfloor, Qdiv, Qmult, Qopp, Qinv, inject_Z.
    cbn [Qnum Qden Pos.mul].
    change (Z.pos (1 * 2)) with 2%Z.
    split; Z.div_mod_to_equations; lia. }
  destruct (Z.ltb_spec reps 0) as [Hneg | _]; [lia |].
  set (n := Z.to_nat frame_count).
  set (pattern := firstn n (np.tile_false_true (Z.to_nat reps))).
  assert (Hlen : length pattern = n).
  { unfold pattern. rewrite length_firstn, tile_length. lia. }
  assert (Hnth : forall i, i < n -> nth i pattern true = Nat.odd i).
  { intros i Hi. unfold pattern.
    rewrite nth_firstn by assumption.
    rewrite (nth_indep _ true false) by (rewrite tile_length; lia).
    apply tile_nth. lia. }
  exists pattern. split; [reflexivity |]. split; [assumption |].
  split; [assumption |].
  intro Hodd.
  assert (Hn : 1 <= n /\ Nat.odd (n - 1) = false).
  { assert (E : exists k, n = 2 * k + 1).
    { exists (Z.to_nat (frame_count / 2)). unfold n.
      Z.div_mod_to_equations. lia. }
    destruct E as (k & ->). split; [lia |].
    replace (2 * k + 1 - 1) with (2 * k) by lia.
    rewrite Nat.odd_mul. reflexivity. }
  destruct Hn as (Hn1 & Hn2). split.
  - pose proof (Hnth 0 ltac:(lia)) as H0.
    destruct pattern; [simpl in Hlen; lia | exact H0].
  - rewrite last_nth, Hlen, Hnth by lia. exact Hn2.
Qed.

Lemma boundaries_reference_pattern_witness :
  exists pattern,
    generate_boundaries_reference_samples Example.library 11 60 1 2
    = call (generate_fake_samples Example.library pattern 60 1 2) /\
    length pattern = Z.to_nat 11 /\
    (forall i, i < Z.to_nat 11 -> nth i pattern true = Nat.odd i) /\
    ((11 mod 2 = 1)%Z ->
     hd true pattern = false /\ last pattern true = false).
Proof.
  apply (boundaries_reference_pattern Example.library 11 60 1 2).
  vm_compute. intro H; discriminate H.
Defined.

Lemma inject_Z_zero (z : Z) : (inject_Z z == 0)%Q <-> z = 0%Z.
Proof.
  unfold Qeq. cbn [Qnum Qden inject_Z]. lia.
Qed.

Lemma Qdiv_Z_zero (n d : Z) :
  d <> 0%Z -> ((inject_Z n / inject_Z d == 0)%Q <-> n = 0%Z).
Proof.
  intro Hd.
  assert (Hd' : ~ (inject_Z d == 0)%Q) by now rewrite inject_Z_zero.
  split.
  - intro E. apply inject_Z_zero.
    rewrite <- (Qmult_div_r (inject_Z n) (inject_Z d) Hd'), E.
    apply Qmult_0_r.
  - intros ->. unfold Qdiv. apply Qmult_0_l.
Qed.

(** The run of [load_inputs], by its inputs. *)
Lemma load_inputs_run (L : Library) (args : Args) (spec : Spec)
    (recording : Recording) :
  load_inputs L args spec recording
  = if (boundaries_signal_frames args mod 2 =? 0)%Z then
      ([], inl AssertionError)
    else if (fps_den spec =? 0)%Z then ([], inl ZeroDivisionError)
    else
      match generate_frames L (transition_count spec)
              (delayed_transitions spec) with
      | inl e => ([], inl e)
      | inr frames =>
          let nominal_fps :=
            (inject_Z (fps_num spec) / inject_Z (fps_den spec))%Q in
          let loaded_spec :=
            Stderr (LoadedSpec (length frames) nominal_fps
                      (np.of_nat (length frames) / nominal_fps)%Q) in
          if (fps_num spec =? 0)%Z then ([], inl ZeroDivisionError)
          else if (wav_sample_rate recording =? 0)%Z then
            ([loaded_spec], inl ZeroDivisionError)
          else
            ([loaded_spec;
              Stderr (LoadedRecording (length (wav_samples recording))
                        (wav_sample_rate recording)
                        (np.of_nat (length (wav_samples recording))
                         / inject_Z (wav_sample_rate recording))%Q)],
             inr tt)
      end.
Proof.
  unfold load_inputs.
  destruct (Z.eqb_spec (boundaries_signal_frames args mod 2) 0) as [E | E];
    [reflexivity |].
  cbn [negb assert]. rewrite bind_ret.
  destruct (Z.eqb_spec (fps_den spec) 0) as [Hden | Hden].
  - unfold np.py_div at 1.
    rewrite (Qeq_eq_bool _ _ (proj2 (inject_Z_zero _) Hden)). reflexivity.
  - rewrite py_div_defined by now rewrite inject_Z_zero.
    rewrite bind_ret.
    destruct (generate_frames L _ _) as [e | frames]; [reflexivity |].
    unfold call. fold (ret frames). rewrite bind_ret.
    destruct (Z.eqb_spec (fps_num spec) 0) as [Hnum | Hnum].
    + unfold np.py_div at 1.
      rewrite (Qeq_eq_bool _ _ (proj2 (Qdiv_Z_zero _ _ Hden) Hnum)).
      reflexivity.
    + rewrite py_div_defined by now rewrite (Qdiv_Z_zero _ _ Hden).
      rewrite bind_ret.
      destruct (Z.eqb_spec (wav_sample_rate recording) 0) as [Hrate | Hrate].
      * unfold np.py_div.
        rewrite (Qeq_eq_bool _ _ (proj2 (inject_Z_zero _) Hrate)).
        reflexivity.
      * rewrite py_div_defined by now rewrite inject_Z_zero.
        reflexivity.
Qed.

(** The inputs [load_inputs] accepts: it ends normally exactly when the
    number of boundary frames is odd, the frame rate has a non-zero
    numerator and denominator, the frames can be generated and the recording
    has a non-zero sample rate, and it has then printed its two loading
    messages.  A zero numerator, denominator or sample rate is a
    [ZeroDivisionError]. *)
Theorem load_inputs_accepts (L : Library) (args : Args) (spec : Spec)
    (recording : Recording) :
  let run := load_inputs L args spec recording in
  let generated :=
    generate_frames L (transition_count spec) (delayed_transitions spec) in
  (outcome run = inr tt <->
   (boundaries_signal_frames args mod 2 <> 0)%Z /\
   fps_den spec <> 0%Z /\ fps_num spec <> 0%Z /\
   wav_sample_rate recording <> 0%Z /\
   exists frames, generated = inr frames) /\
  (outcome run = inr tt ->
   exists frames fps seconds duration,
     generated = inr frames /\
     trace run
     = [Stderr (LoadedSpec (length frames) fps seconds);
        Stderr (LoadedRecording (length (wav_samples recording))
                  (wav_sample_rate recording) duration)]) /\
  ((boundaries_signal_frames args mod 2 <> 0)%Z ->
   (exists frames, generated = inr frames) ->
   fps_den spec = 0%Z \/ fps_num spec = 0%Z
   \/ wav_sample_rate recording = 0%Z ->
   outcome run = inl ZeroDivisionError).
Proof.
  intros run generated. unfold run, generated.
  rewrite load_inputs_run.
  destruct (Z.eqb_spec (boundaries_signal_frames args mod 2) 0) as [Hf | Hf];
    [| destruct (Z.eqb_spec (fps_den spec) 0) as [Hd | Hd];
       [| destruct (generate_frames L _ _) as [e | frames];
          [| cbv zeta;
             destruct (Z.eqb_spec (fps_num spec) 0) as [Hn | Hn];
             [| destruct (Z.eqb_spec (wav_sample_rate recording) 0)
                  as [Hr | Hr]]]]];
    cbn [outcome trace fst snd].
  all: split; [split | split].
  all: try discriminate.
  all: try (intros (H1 & H2 & H3 & H4 & H5 & H6); congruence).
  all: try (intros H1 (fr & H2) H3; try reflexivity; try congruence;
            intuition congruence).
  - intros _. repeat split; auto. now exists frames.
  - intros _. do 4 eexists. split; reflexivity.
Qed.

Lemma load_inputs_accepts_witness :
  outcome
    (load_inputs Example.library Example.args
       {| fps_num := 60; fps_den := 0; transition_count := 4;
          delayed_transitions := [] |}
       Example.recording)
  = inl ZeroDivisionError.
Proof.
  apply (proj2 (proj2 (load_inputs_accepts Example.library Example.args
                         {| fps_num := 60; fps_den := 0;
                            transition_count := 4;
                            delayed_transitions := [] |}
                         Example.recording))).
  - vm_compute. intro H; discriminate H.
  - eexists. reflexivity.
  - left. reflexivity.
Defined.

(** ** The edge search *)

Lemma Qpos_nonzero (a : Q) : (0 < a)%Q -> ~ (a == 0)%Q.
Proof. intros H E. rewrite E in H. discriminate H. Qed.

Lemma find_edges_never_rejected (L : Library) (slope : list Q)
    (p : FindEdgeParams) :
  (1 <= minimum_falling_edge_distance p)%Z ->
  (1 <= minimum_rising_edge_distance p)%Z ->
  exists edges, find_edges L slope p = ret edges.
Proof.
  intros Hf Hr.
  destruct (find_edges_spec L slope p Hf Hr) as (edges & Hrun & _).
  now exists edges.
Qed.

(** The rows of the Series [find_edges] returns, by the two peak
    searches. *)
Lemma find_edges_rows (L : Library) (slope : list Q) (p : FindEdgeParams)
    (edges : pd.Series nat) :
  outcome (find_edges L slope p) = inr edges ->
  exists falling rising,
    scipy.find_peaks L (np.negative slope) (minimum_negative_height p)
      (minimum_falling_edge_distance p) (minimum_negative_prominence p)
    = inr falling /\
    scipy.find_peaks L slope (minimum_positive_height p)
      (minimum_rising_edge_distance p) (minimum_positive_prominence p)
    = inr rising /\
    edges = pd.sort_index
              (map (fun i => (i, false)) falling
                 ++ map (fun i => (i, true)) rising) /\
    forall i b,
      In (i, b) edges
      <-> (b = false /\ In i falling) \/ (b = true /\ In i rising).
Proof.
  intro Hout.
  destruct (find_edges_inv L slope p edges Hout) as (Hdf & Hdr).
  destruct (find_peaks_spec L (np.negative slope) (minimum_negative_height p)
              _ (minimum_negative_prominence p) Hdf) as (falling & Hf & _).
  destruct (find_peaks_spec L slope (minimum_positive_height p)
              _ (minimum_positive_prominence p) Hdr) as (rising & Hr & _).
  rewrite (find_edges_run L slope p falling rising Hf Hr) in Hout.
  injection Hout as <-.
  exists falling, rising. repeat split; auto.
  - intro H. apply (proj1 (sort_index_In _ _)) in H.
    rewrite in_app_iff, !in_map_iff in H.
    destruct H as [(k & [= <- <-] & H) | (k & [= <- <-] & H)]; auto.
  - intro H. apply (proj2 (sort_index_In _ _)).
    rewrite in_app_iff, !in_map_iff.
    destruct H as [(-> & H) | (-> & H)]; [left | right]; now exists i.
Qed.

Lemma local_maxima_plateau (x : list Q) (m : nat) :
  In m (scipy.local_maxima_1d x) ->
  exists l r, plateau x l r /\ m = (l + r) / 2 /\ r + 1 < length x.
Proof.
  intro H. apply scan_plateau in H; [| lia].
  destruct H as (l & r & _ & Hr & Hp & Hm).
  exists l, r. repeat split; auto; try apply Hp. lia.
Qed.

Lemma local_maxima_bounds (x : list Q) (m : nat) :
  In m (scipy.local_maxima_1d x) -> 1 <= m /\ m + 1 < length x.
Proof.
  intro H. destruct (local_maxima_plateau x m H) as (l & r & Hp & -> & Hr).
  destruct Hp as (Hl & Hlr & _).
  pose proof (midpoint_bounds l r Hlr). lia.
Qed.

Lemma find_peaks_local_maxima (L : Library) (x : list Q) (height : Q)
    (distance : Z) (prominence : Q) (peaks : list nat) (m : nat) :
  scipy.find_peaks L x height distance prominence = inr peaks ->
  In m peaks -> In m (scipy.local_maxima_1d x).
Proof.
  intros H Hm.
  destruct (find_peaks_spec L x height distance prominence
              (find_peaks_inv _ _ _ _ _ _ H)) as (peaks' & H' & _ & Hin).
  rewrite H' in H. injection H as <-. now apply Hin.
Qed.

Lemma edge_offset_bounds (L : Library) (slope : list Q)
    (p : FindEdgeParams) (edges : pd.Series nat) :
  outcome (find_edges L slope p) = inr edges ->
  forall offset polarity,
    In (offset, polarity) edges ->
    1 <= offset /\ offset + 1 < length slope.
Proof.
  intros Hout offset polarity Hin.
  destruct (find_edges_rows L slope p edges Hout)
    as (falling & rising & Hf & Hr & _ & Hrows).
  apply (proj1 (Hrows _ _)) in Hin.
  destruct Hin as [(_ & Hin) | (_ & Hin)].
  - apply (find_peaks_local_maxima _ _ _ _ _ _ _ Hf) in Hin.
    apply local_maxima_bounds in Hin.
    unfold np.negative in Hin. now rewrite length_map in Hin.
  - apply (find_peaks_local_maxima _ _ _ _ _ _ _ Hr) in Hin.
    now apply local_maxima_bounds in Hin.
Qed.

(** An edge is never on the first or on the last sample of the slope: every
    offset [find_edges] returns has a sample before it and a sample after
    it. *)
Theorem edge_offsets_inside_slope (L : Library) (slope : list Q)
    (p : FindEdgeParams) (edges : pd.Series nat) :
  outcome (find_edges L slope p) = inr edges ->
  forall offset polarity,
    In (offset, polarity) edges ->
    1 <= offset /\ offset + 1 < length slope.
Proof. exact (edge_offset_bounds L slope p edges). Qed.

Lemma edge_offsets_inside_slope_witness :
  1 <= 12 /\ 12 + 1 < length Example.slope.
Proof.
  apply (edge_offsets_inside_slope Example.library Example.slope
           (find_edge_params Example.args 4 (-2) 2)
           [(2, false); (4, true); (6, false); (8, true); (10, false);
            (12, true)]
           eq_refl 12 true).
  simpl. tauto.
Defined.

Lemma select_by_mask_holds {A} (g : A -> bool) (l : list A) (v : A) :
  In v (np.select (map g l) l) -> g v = true.
Proof.
  induction l as [| a l IH]; simpl; [contradiction |].
  destruct (g a) eqn:E; simpl; [| exact IH].
  intros [<- | H]; [exact E | now apply IH].
Qed.

Lemma find_peaks_height (L : Library) (x : list Q) (height : Q)
    (distance : Z) (prominence : Q) (peaks : list nat) (m : nat) :
  scipy.find_peaks L x height distance prominence = inr peaks ->
  In m peaks -> (height <= np.item x m)%Q.
Proof.
  unfold scipy.find_peaks.
  destruct (distance <? 1)%Z; [discriminate |].
  intros [= <-] Hm.
  do 2 apply select_In in Hm.
  unfold scipy.select_by_property in Hm. rewrite map_map in Hm.
  apply (select_by_mask_holds (fun p => Qle_bool height (np.item x p))) in Hm.
  now apply Qle_bool_iff.
Qed.

(** What an edge is.  A rising edge sits on a sample of at least the
    minimum positive height, at the midpoint of a plateau of the slope; a
    falling edge on a sample whose negation is at least the minimum negative
    height, at the midpoint of a plateau of the negated slope. *)
Theorem edges_are_thresholded_extrema (L : Library) (slope : list Q)
    (p : FindEdgeParams) (edges : pd.Series nat) :
  outcome (find_edges L slope p) = inr edges ->
  (forall offset,
      In (offset, true) edges ->
      (minimum_positive_height p <= np.item slope offset)%Q /\
      exists l r, plateau slope l r /\ offset = (l + r) / 2) /\
  (forall offset,
      In (offset, false) edges ->
      (minimum_negative_height p <= - np.item slope offset)%Q /\
      exists l r,
        plateau (np.negative slope) l r /\ offset = (l + r) / 2).
Proof.
  intro Hout.
  destruct (find_edges_rows L slope p edges Hout)
    as (falling & rising & Hf & Hr & _ & Hrows).
  split; intros offset Hin; apply (proj1 (Hrows _ _)) in Hin.
  - destruct Hin as [(E & _) | (_ & Hin)]; [discriminate |].
    split; [exact (find_peaks_height _ _ _ _ _ _ _ Hr Hin) |].
    apply (find_peaks_local_maxima _ _ _ _ _ _ _ Hr) in Hin.
    destruct (local_maxima_plateau _ _ Hin) as (l & r & Hp & Hm & _).
    now exists l, r.
  - destruct Hin as [(_ & Hin) | (E & _)]; [| discriminate].
    split.
    + rewrite <- negative_item.
      exact (find_peaks_height _ _ _ _ _ _ _ Hf Hin).
    + apply (find_peaks_local_maxima _ _ _ _ _ _ _ Hf) in Hin.
      destruct (local_maxima_plateau _ _ Hin) as (l & r & Hp & Hm & _).
      now exists l, r.
Qed.

Lemma edges_are_thresholded_extrema_witness :
  (forall offset,
      In (offset, true)
        [(2, false); (4, true); (6, false); (8, true); (10, false);
         (12, true)] ->
      (minimum_positive_height (find_edge_params Example.args 4 (-2) 2)
       <= np.item Example.slope offset)%Q /\
      exists l r, plateau Example.slope l r /\ offset = (l + r) / 2) /\
  (forall offset,
      In (offset, false)
        [(2, false); (4, true); (6, false); (8, true); (10, false);
         (12, true)] ->
      (minimum_negative_height (find_edge_params Example.args 4 (-2) 2)
       <= - np.item Example.slope offset)%Q /\
      exists l r,
        plateau (np.negative Example.slope) l r /\ offset = (l + r) / 2).
Proof.
  apply (edges_are_thresholded_extrema Example.library Example.slope
           (find_edge_params Example.args 4 (-2) 2)).
  reflexivity.
Defined.

Lemma no_fall_no_maxima (x : list Q) :
  (forall i j, i <= j -> j < length x -> (np.item x i <= np.item x j)%Q) ->
  scipy.local_maxima_1d x = [].
Proof.
  intro Hmono. destruct (scipy.local_maxima_1d x) as [| m l] eqn:E;
    [reflexivity |].
  assert (Hin : In m (scipy.local_maxima_1d x)) by (rewrite E; now left).
  destruct (local_maxima_plateau x m Hin)
    as (l1 & r1 & (_ & Hlr & _ & _ & Hdown) & _ & Hr).
  pose proof (Hmono l1 (r1 + 1) ltac:(lia) Hr). lra.
Qed.

Lemma no_rise_no_maxima (x : list Q) :
  (forall i j, i <= j -> j < length x -> (np.item x j <= np.item x i)%Q) ->
  scipy.local_maxima_1d x = [].
Proof.
  intro Hmono. destruct (scipy.local_maxima_1d x) as [| m l] eqn:E;
    [reflexivity |].
  assert (Hin : In m (scipy.local_maxima_1d x)) by (rewrite E; now left).
  destruct (local_maxima_plateau x m Hin)
    as (l1 & r1 & (Hl & Hlr & Hup & _ & _) & _ & Hr).
  pose proof (Hmono (l1 - 1) l1 ltac:(lia) ltac:(lia)). lra.
Qed.

Lemma no_maxima_no_edges (L : Library) (slope : list Q)
    (p : FindEdgeParams) :
  (1 <= minimum_falling_edge_distance p)%Z ->
  (1 <= minimum_rising_edge_distance p)%Z ->
  scipy.local_maxima_1d slope = [] ->
  scipy.local_maxima_1d (np.negative slope) = [] ->
  find_edges L slope p = ret [].
Proof.
  intros Hdf Hdr Hpos Hneg.
  destruct (find_edges_spec L slope p Hdf Hdr)
    as (edges & Hrun & _ & Hfalling & Hrising).
  rewrite Hrun. f_equal. f_equal.
  destruct edges as [| [i [|]] edges]; [reflexivity | |].
  - specialize (Hrising i (or_introl eq_refl)).
    rewrite Hpos in Hrising. contradiction.
  - specialize (Hfalling i (or_introl eq_refl)).
    rewrite Hneg in Hfalling. contradiction.
Qed.

(** A slope that never falls, or never rises, has no edge of either
    polarity: the search returns the empty Edge Set, whatever the
    thresholds. *)
Theorem monotone_slope_has_no_edges (L : Library) (slope : list Q)
    (p : FindEdgeParams) :
  (1 <= minimum_falling_edge_distance p)%Z ->
  (1 <= minimum_rising_edge_distance p)%Z ->
  (forall i j, i <= j -> j < length slope ->
               (np.item slope i <= np.item slope j)%Q)
  \/ (forall i j, i <= j -> j < length slope ->
                  (np.item slope j <= np.item slope i)%Q) ->
  find_edges L slope p = ret [].
Proof.
  intros Hdf Hdr Hmono.
  assert (Hlen : length (np.negative slope) = length slope)
    by apply length_map.
  apply no_maxima_no_edges; try assumption;
    destruct Hmono as [Hup | Hdown].
  - now apply no_fall_no_maxima.
  - now apply no_rise_no_maxima.
  - apply no_rise_no_maxima. intros i j Hij Hj.
    rewrite !negative_item. rewrite Hlen in Hj.
    pose proof (Hup i j Hij Hj). lra.
  - apply no_fall_no_maxima. intros i j Hij Hj.
    rewrite !negative_item. rewrite Hlen in Hj.
    pose proof (Hdown i j Hij Hj). lra.
Qed.

Lemma monotone_slope_has_no_edges_witness :
  find_edges Example.library [0; 1; 1; 5]%Q
    (find_edge_params Example.args 4 0 5)
  = ret [].
Proof.
  apply (monotone_slope_has_no_edges Example.library [0; 1; 1; 5]%Q
           (find_edge_params Example.args 4 0 5)).
  - vm_compute. intro H; discriminate H.
  - vm_compute. intro H; discriminate H.
  - left. intros [| [| [| [| i]]]] [| [| [| [| j]]]] Hij Hj;
      simpl in Hj; try lia; vm_compute; intro H; discriminate H.
Defined.

(** ** The sensor's polarity *)

Lemma negative_involutive (x : list Q) : np.negative (np.negative x) = x.
Proof.
  unfold np.negative. rewrite map_map.
  induction x as [| [n d] x IH]; simpl; [reflexivity |].
  unfold Qopp at 1 2. cbn [Qnum Qden].
  now rewrite Z.opp_involutive, IH.
Qed.

Lemma invert_In {I} (s : pd.Series I) (i : I) (b : bool) :
  In (i, b) (pd.invert s) <-> In (i, negb b) s.
Proof.
  unfold pd.invert. rewrite in_map_iff. split.
  - intros ([k c] & [= <- <-] & H). now rewrite negb_involutive.
  - intro H. exists (i, negb b). simpl. now rewrite negb_involutive.
Qed.

(** Two Series with strictly increasing labels and the same rows are the
    same Series. *)
Lemma sorted_rows_unique (s t : pd.Series nat) :
  StronglySorted lt (pd.index s) ->
  StronglySorted lt (pd.index t) ->
  (forall e, In e s <-> In e t) ->
  s = t.
Proof.
  revert t. induction s as [| a s IH]; intros [| b t] Hs Ht Hrows.
  - reflexivity.
  - exfalso. apply (proj2 (Hrows b)). now left.
  - exfalso. apply (proj1 (Hrows a)). now left.
  - simpl in Hs, Ht.
    apply StronglySorted_inv in Hs. destruct Hs as (Hs & Hsa).
    apply StronglySorted_inv in Ht. destruct Ht as (Ht & Htb).
    rewrite Forall_forall in Hsa, Htb.
    assert (Hkey : forall (u : pd.Series nat) e, In e u ->
                                                 In (fst e) (pd.index u)).
    { intros u e H. unfold pd.index. now apply in_map. }
    assert (Hab : a = b).
    { destruct (proj1 (Hrows a) (or_introl eq_refl)) as [E | Hat];
        [now symmetry |].
      destruct (proj2 (Hrows b) (or_introl eq_refl)) as [E | Hbs];
        [assumption |].
      pose proof (Htb _ (Hkey _ _ Hat)).
      pose proof (Hsa _ (Hkey _ _ Hbs)). lia. }
    subst b. f_equal.
    apply IH; try assumption.
    intro e. split; intro H.
    + destruct (proj1 (Hrows e) (or_intror H)) as [E | H']; [| assumption].
      subst e. pose proof (Hsa _ (Hkey _ _ H)). lia.
    + destruct (proj2 (Hrows e) (or_intror H)) as [E | H']; [| assumption].
      subst e. pose proof (Htb _ (Hkey _ _ H)). lia.
Qed.

Lemma find_edges_error (L : Library) (slope : list Q) (p : FindEdgeParams)
    (e : Exception) :
  outcome (find_edges L slope p) = inl e -> e = ValueError.
Proof.
  unfold find_edges, scipy.find_peaks.
  destruct (minimum_falling_edge_distance p <? 1)%Z;
    [now intros [= <-] |].
  destruct (minimum_rising_edge_distance p <? 1)%Z;
    [now intros [= <-] | discriminate].
Qed.

(** Negating the slope exchanges the two polarities.  With the parameters
    of the two polarities exchanged as well, the search on the negated
    slope finds the same offsets with every bit inverted, and it is
    rejected exactly when the search on the slope is. *)
Theorem negated_slope_inverts_edges (L : Library) (slope : list Q)
    (p : FindEdgeParams) :
  outcome (find_edges L (np.negative slope) (swap_polarity p))
  = match outcome (find_edges L slope p) with
    | inl e => inl e
    | inr edges => inr (pd.invert edges)
    end.
Proof.
  destruct (outcome (find_edges L slope p)) as [e | edges] eqn:Hout.
  - apply find_edges_error in Hout as He. subst e.
    destruct (outcome (find_edges L (np.negative slope) (swap_polarity p)))
      as [e' | edges'] eqn:Hout'.
    + apply find_edges_error in Hout'. now subst e'.
    + exfalso. destruct (find_edges_inv _ _ _ _ Hout') as (Hf & Hr).
      cbn [swap_polarity minimum_falling_edge_distance
           minimum_rising_edge_distance] in Hf, Hr.
      destruct (find_edges_never_rejected L slope p Hr Hf) as (edges & E).
      rewrite E in Hout. discriminate Hout.
  - destruct (find_edges_inv _ _ _ _ Hout) as (Hf & Hr).
    pose proof (find_edges_sorted _ _ _ _ Hout) as Hsorted.
    destruct (find_edges_rows _ _ _ _ Hout)
      as (falling & rising & Hfalling & Hrising & _ & Hrows).
    destruct (find_edges_never_rejected L (np.negative slope)
                (swap_polarity p) Hr Hf) as (edges' & E').
    assert (Hout' : outcome (find_edges L (np.negative slope)
                               (swap_polarity p)) = inr edges')
      by now rewrite E'.
    rewrite Hout'. f_equal.
    pose proof (find_edges_sorted _ _ _ _ Hout') as Hsorted'.
    destruct (find_edges_rows _ _ _ _ Hout')
      as (falling' & rising' & Hfalling' & Hrising' & _ & Hrows').
    rewrite negative_involutive in Hfalling'.
    cbn [swap_polarity minimum_negative_height minimum_positive_height
         minimum_falling_edge_distance minimum_rising_edge_distance
         minimum_negative_prominence minimum_positive_prominence]
      in Hfalling', Hrising'.
    rewrite Hrising in Hfalling'. injection Hfalling' as <-.
    rewrite Hfalling in Hrising'. injection Hrising' as <-.
    apply sorted_rows_unique.
    + assumption.
    + now rewrite invert_index.
    + intros [i b]. rewrite invert_In, Hrows, Hrows'.
      destruct b; simpl; intuition congruence.
Qed.

(** The resolved Edge Set does not depend on the sensor's polarity: when
    the first and the last edge differ, inverting every bit of the Edge Set
    before the resolver changes nothing of what the resolver returns.  When
    they are equal the inverted bits come out as they went in. *)
Theorem resolved_edges_ignore_sensor_polarity {I : Type}
    (edges : pd.Series I) (first last : bool) :
  outcome (pd.iloc_first edges) = inr first ->
  outcome (pd.iloc_last edges) = inr last ->
  (first <> last ->
   outcome (resolve_polarity (pd.invert edges))
   = outcome (resolve_polarity edges)) /\
  (first = last ->
   outcome (resolve_polarity (pd.invert edges)) = inr (pd.invert edges)).
Proof.
  intros Hf Hl.
  apply iloc_first_ret in Hf. apply iloc_last_ret in Hl.
  rewrite (resolve_polarity_run edges first last Hf Hl).
  rewrite (resolve_polarity_run (pd.invert edges) (negb first) (negb last)
             (iloc_first_invert _ _ Hf) (iloc_last_invert _ _ Hl)).
  assert (Hinv : pd.invert (pd.invert edges) = edges).
  { unfold pd.invert. rewrite map_map.
    rewrite <- (map_id edges) at 2. apply map_ext.
    intros [i b]. simpl. now rewrite negb_involutive. }
  destruct first, last; simpl; split; intro H; congruence.
Qed.

Lemma resolved_edges_ignore_sensor_polarity_witness :
  (false <> true ->
   outcome (resolve_polarity (pd.invert [(2, false); (4, true); (6, true)]))
   = outcome (resolve_polarity [(2, false); (4, true); (6, true)])) /\
  (false = true ->
   outcome (resolve_polarity (pd.invert [(2, false); (4, true); (6, true)]))
   = inr (pd.invert [(2, false); (4, true); (6, true)])).
Proof.
  apply (resolved_edges_ignore_sensor_polarity
           [(2, false); (4, true); (6, true)] false true);
    reflexivity.
Defined.

Lemma abs_negative (cc : list Q) : np.abs (np.negative cc) = np.abs cc.
Proof.
  unfold np.abs, np.negative. rewrite map_map. apply map_ext.
  intros [n d]. unfold Qabs, Qopp. cbn [Qnum Qden].
  now rewrite Z.abs_opp.
Qed.

(** The boundary search does not depend on the sign of the
    cross-correlation: on the negated cross-correlation the script writes
    the same candidate artifact and finds the same candidates. *)
Theorem boundary_candidates_ignore_sign (args : Args) (rate : Q)
    (cc : list Q) :
  find_boundary_candidates args rate (np.negative cc)
  = find_boundary_candidates args rate cc.
Proof.
  unfold find_boundary_candidates, boundary_candidates.
  now rewrite abs_negative.
Qed.

(** ** The boundary candidates and the threshold *)

Lemma find_boundary_candidates_spec (args : Args) (rate : Q) (cc : list Q)
    (idx : list nat) :
  outcome (find_boundary_candidates args rate cc) = inr idx ->
  exists peak,
    np.max (np.abs cc) = ret peak /\
    (0 <= peak)%Q /\
    (forall j, j < length cc -> (Qabs (np.item cc j) <= peak)%Q) /\
    (exists j, j < length cc /\ Qabs (np.item cc j) = peak) /\
    StronglySorted lt idx /\
    forall i,
      In i idx <->
      i < length cc /\
      (peak * boundaries_score_threshold_ratio args
       <= Qabs (np.item cc i))%Q.
Proof.
  intro Hidx.
  assert (Hne : np.abs cc <> []).
  { pose proof (find_boundary_candidates_defined _ _ _ _ Hidx) as H.
    destruct cc; [contradiction | discriminate]. }
  destruct (np_max_spec _ Hne) as (peak & Hmax & Hbound & Hattained).
  unfold np.abs in Hbound, Hattained. rewrite length_map in Hbound, Hattained.
  fold (np.abs cc) in Hbound, Hattained.
  rewrite (find_boundary_candidates_outcome _ _ _ _ Hmax) in Hidx.
  injection Hidx as <-.
  exists peak. split; [assumption |].
  destruct Hattained as (j & Hj & E). rewrite abs_item in E.
  split; [rewrite <- E; apply Qabs_nonneg |].
  split; [intros k Hk; rewrite <- abs_item; now apply Hbound |].
  split; [now exists j |].
  split; [apply nonzero_from_sorted | intro i; apply candidate_spec].
Qed.



(** The threshold at its extremes, for a cross-correlation of numbers (no
    NaN, no infinity, nothing in the subnormal range) and a ratio that is a
    number.  With a ratio of zero or less every position is a candidate; so
    is every position of a cross-correlation that is zero throughout,
    whatever the ratio.  With a ratio above one and a cross-correlation
    that is not zero throughout there is no candidate at all, and the check
    for two candidates fails. *)
Theorem candidates_at_threshold_extremes (args : Args) (rate : Q)
    (cc : list Q) (idx : list nat) :
  outcome (find_boundary_candidates args rate cc) = inr idx ->
  ((boundaries_score_threshold_ratio args <= 0)%Q ->
   forall i, i < length cc -> In i idx) /\
  ((forall j, j < length cc -> (np.item cc j == 0)%Q) ->
   forall i, i < length cc -> In i idx) /\
  ((1 < boundaries_score_threshold_ratio args)%Q ->
   (exists j, j < length cc /\ ~ (np.item cc j == 0)%Q) ->
   idx = [] /\ assert (1 <? length idx) = raise AssertionError).
Proof.
  intro Hidx.
  destruct (find_boundary_candidates_spec _ _ _ _ Hidx)
    as (peak & _ & Hpos & Hbound & (k & Hk & Ek) & _ & Hspec).
  set (ratio := boundaries_score_threshold_ratio args) in *.
  split; [| split].
  - intros Hratio i Hi. apply Hspec. split; [assumption |].
    apply Qle_trans with 0%Q; [| apply Qabs_nonneg]. nra.
  - intros Hzero i Hi. apply Hspec. split; [assumption |].
    assert (Hpeak : (peak == 0)%Q).
    { rewrite <- Ek, (Hzero k Hk). reflexivity. }
    rewrite Hpeak, Qmult_0_l. apply Qabs_nonneg.
  - intros Hratio (j & Hj & Hnz).
    assert (Hpeak : (0 < peak)%Q).
    { apply Qlt_le_trans with (Qabs (np.item cc j)); [| now apply Hbound].
      destruct (Qlt_le_dec 0 (Qabs (np.item cc j))) as [H | H];
        [assumption |].
      exfalso. apply Hnz.
      assert (E : (Qabs (np.item cc j) == 0)%Q)
        by (apply Qle_antisym; [assumption | apply Qabs_nonneg]).
      pose proof (Qle_Qabs (np.item cc j)) as H1.
      pose proof (Qle_Qabs (- np.item cc j)) as H2.
      rewrite Qabs_opp in H2. lra. }
    assert (Hnil : idx = []).
    { destruct idx as [| i idx']; [reflexivity |]. exfalso.
      destruct (proj1 (Hspec i) (or_introl eq_refl)) as (Hi & Hle).
      pose proof (Hbound i Hi). nra. }
    split; [assumption |]. now rewrite Hnil.
Qed.

Lemma candidates_at_threshold_extremes_witness :
  (forall i, i < 3 -> In i [0; 1; 2]) /\
  (@nil nat = [] /\ assert (1 <? length (@nil nat)) = raise AssertionError).
Proof.
  split.
  - apply (proj1
             (proj2
                (candidates_at_threshold_extremes Example.args 2 [0; 0; 0]%Q
                   [0; 1; 2] eq_refl))).
    intros [| [| [| j]]] Hj; try reflexivity. simpl in Hj. lia.
  - apply (proj2
             (proj2
                (candidates_at_threshold_extremes
                   {| min_edge_separation_seconds := 1 # 2;
                      boundaries_signal_frames := 3;
                      boundaries_score_threshold_ratio := 2;
                      timestamp_resolution_seconds := 1 # 4;
                      minimum_negative_slope_peak_height_ratio := 3 # 10;
                      minimum_positive_slope_peak_height_ratio := 3 # 10;
                      minimum_negative_slope_peak_prominence_ratio := 3 # 10;
                      minimum_positive_slope_peak_prominence_ratio := 3 # 10;
                      output_file := fun _ => false |}
                   2 [-4; 6; -4]%Q [] eq_refl))).
    + reflexivity.
    + exists 1. split; [simpl; lia |]. vm_compute. intro H; discriminate H.
Defined.

(** ** Not a number *)

Lemma maximum_nan_l (b : binary64.float) :
  binary64.maximum S754_nan b = S754_nan.
Proof. reflexivity. Qed.

Lemma maximum_nan_r (a : binary64.float) :
  binary64.maximum a S754_nan = S754_nan.
Proof. now destruct a. Qed.

Lemma fold_maximum_nan (x : list binary64.float) :
  fold_left binary64.maximum x S754_nan = S754_nan.
Proof. induction x as [| b x IH]; [reflexivity | exact IH]. Qed.

Lemma fold_maximum_In_nan (x : list binary64.float) (a : binary64.float) :
  In S754_nan x -> fold_left binary64.maximum x a = S754_nan.
Proof.
  revert a. induction x as [| b x IH]; intros a Hin; [contradiction |].
  cbn [fold_left]. destruct Hin as [-> | Hin].
  - rewrite maximum_nan_r. apply fold_maximum_nan.
  - now apply IH.
Qed.

Lemma abs_In_nan (cc : list binary64.float) :
  In S754_nan cc -> In S754_nan (binary64.abs cc).
Proof.
  intro Hin. unfold binary64.abs.
  change S754_nan with (SFabs S754_nan). now apply in_map.
Qed.

Lemma nonzero_from_none {A} (x : list A) (i : nat) :
  np.nonzero_from i (map (fun _ => false) x) = [].
Proof.
  revert i. induction x as [| v x IH]; intro i; [reflexivity |].
  cbn [map np.nonzero_from]. apply IH.
Qed.

(** A NaN anywhere in the cross-correlation, which one NaN sample of the
    recording leads to, makes the greatest magnitude NaN.  No position is a
    candidate then, whatever the threshold ratio, and the check for two
    candidates fails. *)
Theorem nan_leaves_no_candidate (threshold_ratio : binary64.float)
    (cc : list binary64.float) :
  In S754_nan cc ->
  binary64.max (binary64.abs cc) = ret S754_nan /\
  binary64.boundary_candidates threshold_ratio cc
  = ret (map (fun _ => false) cc) /\
  binary64.find_boundary_candidates threshold_ratio cc = ret [] /\
  (idx <- binary64.find_boundary_candidates threshold_ratio cc ;;
   assert (1 <? length idx))
  = raise AssertionError.
Proof.
  intro Hin.
  assert (Hmax : binary64.max (binary64.abs cc) = ret S754_nan).
  { pose proof (abs_In_nan cc Hin) as Habs.
    destruct (binary64.abs cc) as [| a x]; [contradiction |].
    cbn [binary64.max]. f_equal. f_equal.
    destruct Habs as [-> | Habs];
      [apply fold_maximum_nan | now apply fold_maximum_In_nan]. }
  assert (Hmask : binary64.boundary_candidates threshold_ratio cc
                  = ret (map (fun _ => false) cc)).
  { unfold binary64.boundary_candidates. rewrite Hmax, bind_ret.
    unfold binary64.abs. rewrite map_map. reflexivity. }
  assert (Hidx : binary64.find_boundary_candidates threshold_ratio cc
                 = ret []).
  { unfold binary64.find_boundary_candidates. rewrite Hmask, bind_ret.
    unfold np.nonzero. now rewrite nonzero_from_none. }
  repeat split; try assumption.
  rewrite Hidx, bind_ret. reflexivity.
Qed.

Lemma nan_leaves_no_candidate_witness :
  let ratio := S754_finite false 4503599627370496 (-53) in
  let cc := [binary64.of_Z 2; S754_nan; binary64.of_Z (-3)] in
  binary64.max (binary64.abs cc) = ret S754_nan /\
  binary64.boundary_candidates ratio cc = ret (map (fun _ => false) cc) /\
  binary64.find_boundary_candidates ratio cc = ret [] /\
  (idx <- binary64.find_boundary_candidates ratio cc ;;
   assert (1 <? length idx))
  = raise AssertionError.
Proof.
  apply (nan_leaves_no_candidate
           (S754_finite false 4503599627370496 (-53))
           [binary64.of_Z 2; S754_nan; binary64.of_Z (-3)]).
  right. left. reflexivity.
Defined.

(** ** The trimmed slope *)

Lemma sorted_hd_below_last (l : list nat) :
  StronglySorted lt l -> 2 <= length l -> hd 0 l < last l 0.
Proof.
  intros Hs Hlen. destruct l as [| a [| b l]]; simpl in Hlen; try lia.
  destruct (sorted_last_greatest (a :: b :: l) Hs) as (_ & Hmax);
    [discriminate |].
  apply StronglySorted_inv in Hs. destruct Hs as (_ & Hall).
  rewrite Forall_forall in Hall.
  pose proof (Hall b (or_introl eq_refl)).
  pose proof (Hmax b (or_intror (or_introl eq_refl))).
  simpl hd. lia.
Qed.

(** The trimmed slope is never clipped.  When the cross-correlation has
    the length of a full-overlap correlation of the slope with the reference
    signal, and there are two candidates or more, the window from the first
    candidate to the last one plus the reference length lies inside the
    slope: the trimmed slope has all its [end - start] samples, more than a
    reference signal's worth. *)
Theorem trimmed_slope_is_whole (args : Args) (rate : Q) (cc slope : list Q)
    (reference_size : nat) (idx : list nat) :
  outcome (find_boundary_candidates args rate cc) = inr idx ->
  length cc + reference_size = length slope + 1 ->
  2 <= length idx ->
  exists start stop trimmed,
    outcome (trim args rate slope idx reference_size)
    = inr (start, stop, trimmed) /\
    start < stop /\ stop <= length slope /\
    length trimmed = stop - start /\
    reference_size < length trimmed.
Proof.
  intros Hidx Hvalid Hmany.
  destruct (find_boundary_candidates_spec _ _ _ _ Hidx)
    as (peak & _ & _ & _ & _ & Hsorted & Hspec).
  assert (Hne : idx <> []) by (destruct idx; [simpl in Hmany; lia | discriminate]).
  destruct (sorted_last_greatest idx Hsorted Hne) as (Hlast & _).
  pose proof (sorted_hd_below_last idx Hsorted Hmany) as Hlt.
  apply Hspec in Hlast. destruct Hlast as (Hlast & _).
  destruct (slice_window slope (hd 0 idx) (last idx 0 + reference_size))
    as (Hlen & _).
  exists (hd 0 idx), (last idx 0 + reference_size),
    (np.slice slope (hd 0 idx) (last idx 0 + reference_size)).
  split.
  { unfold trim, test_signal_bounds.
    rewrite !outcome_bind. cbn [print emit outcome snd].
    now rewrite maybe_write_wavfile_plain. }
  rewrite Hlen. repeat split; lia.
Qed.

Lemma trimmed_slope_is_whole_witness :
  exists start stop trimmed,
    outcome (trim Example.args 2 [0; -2; 2; -2; 0; 1; 0]%Q [0; 1; 2] 3)
    = inr (start, stop, trimmed) /\
    start < stop /\ stop <= 7 /\
    length trimmed = stop - start /\
    3 < length trimmed.
Proof.
  apply (trimmed_slope_is_whole Example.args 2 [-4; 6; -4; 0; 1]%Q
           [0; -2; 2; -2; 0; 1; 0]%Q 3 [0; 1; 2]);
    [reflexivity | reflexivity | simpl; lia].
Defined.

(** ** The debug artifacts *)

Lemma observable_app (t u : list Event) :
  observable (t ++ u) = observable t ++ observable u.
Proof.
  induction t as [| [d | f r x n | rows] t IH]; simpl; auto;
    now rewrite IH.
Qed.

Lemma bind_assoc {A B C} (m : Run A) (f : A -> Run B) (g : B -> Run C) :
  bind (bind m f) g = bind m (fun a => bind (f a) g).
Proof.
  destruct m as [t [e | a]]; simpl; [reflexivity |].
  destruct (f a) as [t' [e | b]]; simpl; [reflexivity |].
  destruct (g b) as [t'' r]. now rewrite app_assoc.
Qed.

Lemma script_output_app (t u : list Event) :
  script_output (t ++ u) = script_output t ++ script_output u.
Proof.
  induction t as [| [[] | f r x n | rows] t IH]; simpl; auto;
    now rewrite IH.
Qed.

Lemma same_refl {A} (r : Run A) : same_but_artifacts r r.
Proof. split; reflexivity. Qed.

Lemma same_sym {A} (r r' : Run A) :
  same_but_artifacts r r' -> same_but_artifacts r' r.
Proof. intros (Ho & Ht). split; congruence. Qed.

Lemma same_trans {A} (r r' r'' : Run A) :
  same_but_artifacts r r' -> same_but_artifacts r' r'' ->
  same_but_artifacts r r''.
Proof. intros (Ho & Ht) (Ho' & Ht'). split; congruence. Qed.

Lemma same_bind {A B} (m m' : Run A) (f f' : A -> Run B) :
  same_but_artifacts m m' ->
  (forall a, same_but_artifacts (f a) (f' a)) ->
  same_but_artifacts (bind m f) (bind m' f').
Proof.
  intros (Ho & Ht) Hf. unfold same_but_artifacts.
  rewrite !outcome_bind, !trace_bind, !script_output_app, <- Ho, Ht.
  destruct (outcome m) as [e | a]; [split; reflexivity |].
  destruct (Hf a) as (Ho' & Ht'). now rewrite Ho', Ht'.
Qed.

(** A write that is not normalized: an artifact or nothing. *)
Lemma same_plain_write (args args' : Args) (rate : Q) (file : DebugFile)
    (samples : list Q) :
  same_but_artifacts (maybe_write_wavfile args rate file samples false)
    (maybe_write_wavfile args' rate file samples false).
Proof.
  unfold maybe_write_wavfile.
  destruct (negb (output_file args file)),
    (negb (output_file args' file)); split; reflexivity.
Qed.

(** A normalized write fails on an empty array only, and what follows it in
    the script fails on the empty array in the same way; on an array that
    is zero throughout it adds numpy's warning and the artifact. *)
Lemma same_normalized_write_then {B} (args : Args) (rate : Q)
    (file : DebugFile) (samples : list Q) (k : Run B) :
  (samples = [] -> k = ([], inl ValueError)) ->
  same_but_artifacts
    (bind (maybe_write_wavfile args rate file samples true) (fun _ => k)) k.
Proof.
  intro Hempty. unfold maybe_write_wavfile.
  destruct (negb (output_file args file)).
  - rewrite bind_ret. apply same_refl.
  - destruct samples as [| v samples].
    + rewrite (Hempty eq_refl). split; reflexivity.
    + cbn [np.abs map np.max]. rewrite bind_ret.
      destruct k as [t r].
      destruct (Qeq_bool _ 0); split; reflexivity.
Qed.

Lemma same_normalized_write {B} (args args' : Args) (rate : Q)
    (file : DebugFile) (samples : list Q) (k k' : Run B) :
  same_but_artifacts k k' ->
  (samples = [] -> k = ([], inl ValueError)) ->
  (samples = [] -> k' = ([], inl ValueError)) ->
  same_but_artifacts
    (bind (maybe_write_wavfile args rate file samples true) (fun _ => k))
    (bind (maybe_write_wavfile args' rate file samples true) (fun _ => k')).
Proof.
  intros Hk Hempty Hempty'.
  apply same_trans with k; [now apply same_normalized_write_then |].
  apply same_trans with k'; [assumption |].
  apply same_sym. now apply same_normalized_write_then.
Qed.

Ltac same_step :=
  match goal with
  | |- same_but_artifacts (bind (maybe_write_wavfile _ _ _ _ false) _) _ =>
      apply same_bind; [apply same_plain_write | intro]
  | |- same_but_artifacts (bind _ _) (bind _ _) =>
      apply same_bind; [| intro]
  | |- same_but_artifacts (let (_, _) := ?x in _) _ => destruct x
  | |- same_but_artifacts (match ?x with _ => _ end) _ => destruct x
  | |- same_but_artifacts _ _ => apply same_refl
  end.

Lemma same_until_boundary_check (L : Library) (args : Args) (spec : Spec)
    (recording : Recording) :
  same_but_artifacts (until_boundary_check L args spec recording)
    (until_boundary_check L (without_debug_files args) spec recording).
Proof.
  unfold until_boundary_check.
  apply same_bind; [apply same_refl | intros _].
  apply same_bind.
  { unfold downsample. repeat same_step. }
  intros [rate slope]. unfold correlate_boundaries.
  rewrite ?bind_assoc. apply same_bind; [apply same_refl | intro reference].
  rewrite ?bind_assoc. apply same_bind; [apply same_plain_write | intros _].
  rewrite ?bind_assoc. apply same_bind; [apply same_refl | intro cc].
  rewrite ?bind_assoc. apply same_normalized_write.
  - rewrite !bind_ret. unfold find_boundary_candidates. repeat same_step.
  - intros ->. reflexivity.
  - intros ->. reflexivity.
Qed.

Lemma same_until_edge_check (L : Library) (args : Args)
    (s : AtBoundaryCheck) :
  same_but_artifacts (until_edge_check L args s)
    (until_edge_check L (without_debug_files args) s).
Proof.
  unfold until_edge_check. apply same_bind.
  { unfold trim. destruct (test_signal_bounds _ _). repeat same_step. }
  intros [[start stop] slope]. apply same_bind.
  { unfold upsample. repeat same_step. }
  intros [u upsampled]. repeat same_step.
Qed.

Lemma same_output_stage (args : Args) (s : AtEdgeCheck) :
  same_but_artifacts (output_stage args s)
    (output_stage (without_debug_files args) s).
Proof. unfold output_stage. repeat same_step. Qed.

(** The debug artifacts are a side output.  With the artifacts written to
    files of their own, asking for any of them changes neither how a run
    ends, nor the table it writes to [sys.stdout], nor what the script
    itself prints to [sys.stderr].  The one line a run with artifacts can
    add to [sys.stderr] is numpy's warning about an invalid value, printed
    when the cross-correlation artifact is normalized and the
    cross-correlation is zero throughout. *)
Theorem debug_artifacts_leave_the_run_alone (L : Library) (args : Args)
    (spec : Spec) (recording : Recording) :
  let run := analyze_recording L args spec recording in
  let plain :=
    analyze_recording L (without_debug_files args) spec recording in
  outcome run = outcome plain /\
  script_output (trace run) = script_output (trace plain) /\
  stdout_rows (trace run) = stdout_rows (trace plain).
Proof.
  intros run plain.
  assert (Hsame : same_but_artifacts run plain).
  { unfold run, plain, analyze_recording.
    apply same_bind; [apply same_until_boundary_check | intro s1].
    apply same_bind; [apply same_refl | intros _].
    apply same_bind; [apply same_until_edge_check | intro s2].
    apply same_bind; [apply same_refl | intros _].
    apply same_output_stage. }
  destruct Hsame as (Ho & Ht).
  assert (Hrows : forall t, stdout_rows (script_output t) = stdout_rows t).
  { induction t as [| [[] | f r x n | rows] t IH]; simpl; auto;
      now rewrite IH. }
  repeat split; auto.
  now rewrite <- (Hrows (trace run)), Ht, Hrows.
Qed.

(** ** The shape of a run that ends normally *)

Lemma diagnostics_only_bind {A B} (m : Run A) (f : A -> Run B) :
  diagnostics_only m -> (forall a, diagnostics_only (f a)) ->
  diagnostics_only (bind m f).
Proof.
  unfold diagnostics_only. intros Hm Hf.
  rewrite trace_bind, observable_app, stderr_lines_app, map_app, Hm.
  destruct (outcome m) as [e | a]; [reflexivity | now rewrite Hf].
Qed.

Lemma diagnostics_only_ret {A} (a : A) : diagnostics_only (ret a).
Proof. reflexivity. Qed.

Lemma diagnostics_only_raise {A} (e : Exception) :
  diagnostics_only (@raise A e).
Proof. reflexivity. Qed.

Lemma diagnostics_only_call {A} (r : Exception + A) :
  diagnostics_only (call r).
Proof. reflexivity. Qed.

Lemma diagnostics_only_print (d : Diagnostic) : diagnostics_only (print d).
Proof. reflexivity. Qed.

Lemma diagnostics_only_assert (c : bool) : diagnostics_only (assert c).
Proof. now destruct c. Qed.

Lemma diagnostics_only_py_div (a b : Q) : diagnostics_only (np.py_div a b).
Proof. unfold np.py_div. now destruct (Qeq_bool b 0). Qed.

Lemma diagnostics_only_true_divide (a b : Q) :
  diagnostics_only (np.true_divide a b).
Proof. unfold np.true_divide. now destruct (Qeq_bool b 0). Qed.

Lemma diagnostics_only_max (x : list Q) : diagnostics_only (np.max x).
Proof. now destruct x. Qed.

Lemma diagnostics_only_min (x : list Q) : diagnostics_only (np.min x).
Proof. now destruct x. Qed.

Lemma diagnostics_only_maybe_write_wavfile args rate file samples normalize :
  diagnostics_only (maybe_write_wavfile args rate file samples normalize).
Proof.
  unfold maybe_write_wavfile.
  destruct (negb (output_file args file)); [reflexivity |].
  destruct normalize; [| reflexivity].
  destruct samples as [| v samples]; [reflexivity |].
  cbn [np.abs map np.max]. rewrite bind_ret.
  destruct (Qeq_bool _ 0); reflexivity.
Qed.

Create HintDb diagnostics.

#[local] Hint Resolve diagnostics_only_ret diagnostics_only_raise
  diagnostics_only_call diagnostics_only_print diagnostics_only_assert
  diagnostics_only_py_div diagnostics_only_true_divide diagnostics_only_max
  diagnostics_only_min diagnostics_only_maybe_write_wavfile : diagnostics.

Ltac diagnostics_step :=
  match goal with
  | |- diagnostics_only (bind _ _) => apply diagnostics_only_bind; [| intro]
  | |- diagnostics_only (let (_, _) := ?x in _) => destruct x
  | |- diagnostics_only (match ?x with _ => _ end) => destruct x
  | |- diagnostics_only (if ?c then _ else _) => destruct c
  | |- diagnostics_only _ => solve [auto with diagnostics]
  end.

Lemma diagnostics_only_find_edges (L : Library) (slope : list Q)
    (p : FindEdgeParams) :
  diagnostics_only (find_edges L slope p).
Proof. unfold find_edges. repeat diagnostics_step. Qed.

Lemma diagnostics_only_until_boundary_check (L : Library) (args : Args)
    (spec : Spec) (recording : Recording) :
  diagnostics_only (until_boundary_check L args spec recording).
Proof.
  unfold until_boundary_check, load_inputs, downsample, downsampling,
    generate_downsampling_derivative_kernel, correlate_boundaries,
    generate_boundaries_reference_samples, find_boundary_candidates,
    boundary_candidates.
  repeat diagnostics_step.
Qed.

Lemma diagnostics_only_until_edge_check (L : Library) (args : Args)
    (s : AtBoundaryCheck) :
  diagnostics_only (until_edge_check L args s).
Proof.
  unfold until_edge_check, trim, upsample, upsampling, detect_edges.
  destruct (test_signal_bounds _ _).
  repeat first [apply diagnostics_only_find_edges | diagnostics_step].
Qed.

Lemma diagnostics_only_resolve_polarity {I : Type} (edges : pd.Series I) :
  diagnostics_only (resolve_polarity edges).
Proof.
  destruct edges as [| e l]; [reflexivity |].
  destruct (iloc_defined (e :: l)) as (first & last & Hf & Hl);
    [discriminate |].
  rewrite (resolve_polarity_run _ first last Hf Hl).
  destruct (Bool.eqb first last); reflexivity.
Qed.

(** A run that ends normally went through both checks. *)
Lemma run_success_inv (L : Library) (args : Args) (spec : Spec)
    (recording : Recording) :
  outcome (analyze_recording L args spec recording) = inr tt ->
  exists s1 s2,
    outcome (until_boundary_check L args spec recording) = inr s1 /\
    2 <= length (boundary_candidate_indexes s1) /\
    outcome (until_edge_check L args s1) = inr s2 /\
    ec_edges s2 <> [] /\
    outcome (output_stage args s2) = inr tt.
Proof.
  unfold analyze_recording. intro H.
  apply bind_inr in H. destruct H as (s1 & H1 & H).
  apply bind_inr in H. destruct H as ([] & Hc1 & H).
  apply bind_inr in H. destruct H as (s2 & H2 & H).
  apply bind_inr in H. destruct H as ([] & Hc2 & H).
  exists s1, s2. repeat split; auto.
  - destruct (Nat.ltb_spec 1 (length (boundary_candidate_indexes s1)));
      [lia | discriminate Hc1].
  - intro E. rewrite E in Hc2. discriminate Hc2.
Qed.

Lemma output_stage_success (args : Args) (s : AtEdgeCheck) :
  ec_edges s <> [] ->
  outcome (output_stage args s) = inr tt ->
  ~ (upsampled_sample_rate (ec_upsampled s) == 0)%Q /\
  exists final,
    outcome (resolve_polarity (ec_edges s)) = inr final /\
    pd.index final = pd.index (ec_edges s).
Proof.
  intros Hne H.
  destruct (resolve_polarity_cases (ec_edges s) Hne) as (final & Hres & Hcase).
  assert (Hindex : pd.index final = pd.index (ec_edges s))
    by (destruct Hcase as [-> | ->]; [| rewrite invert_index]; reflexivity).
  split; [| now exists final].
  unfold output_stage in H.
  apply bind_inr in H. destruct H as (_ & _ & H).
  apply bind_inr in H. destruct H as (final' & Hres' & H).
  rewrite Hres in Hres'. injection Hres' as <-.
  unfold write_output in H.
  apply bind_inr in H. destruct H as (index & H & _).
  unfold timestamps in H. rewrite Hindex in H.
  destruct (ec_edges s) as [| e l]; [contradiction |].
  cbn [pd.index map] in H.
  destruct (Qeq_bool (upsampled_sample_rate (ec_upsampled s)) 0) eqn:E;
    [discriminate H |].
  now apply Qeq_bool_neq.
Qed.

Lemma bind_success {A B} (m : Run A) (f : A -> Run B) (b : B) :
  outcome (bind m f) = inr b ->
  exists a,
    outcome m = inr a /\ outcome (f a) = inr b /\
    trace (bind m f) = trace m ++ trace (f a).
Proof.
  intro H. destruct (bind_inr m f b H) as (a & Hm & Hf).
  exists a. repeat split; auto.
  rewrite trace_bind, Hm. reflexivity.
Qed.

Lemma detect_edges_count (L : Library) (args : Args) (rate : Q)
    (slope : list Q) (edges : pd.Series nat) :
  outcome (detect_edges L args rate slope) = inr edges ->
  (exists p, outcome (find_edges L slope p) = inr edges) /\
  In (DetectedEdges (length edges))
    (stderr_lines (trace (detect_edges L args rate slope))).
Proof.
  unfold detect_edges. cbv zeta. intro H.
  apply bind_success in H. destruct H as (slope_min & _ & H & T1).
  rewrite T1.
  apply bind_success in H. destruct H as (slope_max & _ & H & T2).
  rewrite T2.
  apply bind_success in H. destruct H as ([] & _ & H & T3). rewrite T3.
  apply bind_success in H. destruct H as ([] & _ & H & T4). rewrite T4.
  apply bind_success in H. destruct H as (found & Hfound & H & T5).
  rewrite T5.
  apply bind_success in H. destruct H as ([] & _ & H & T6). rewrite T6.
  injection H as <-.
  split; [eexists; exact Hfound |].
  rewrite !stderr_lines_app, !in_app_iff. do 5 right. left.
  unfold pd.index. rewrite length_map. now left.
Qed.

(** What reaches the second check: the upsampled slope, and the edges
    found in it. *)
Lemma until_edge_check_inv (L : Library) (args : Args)
    (s1 : AtBoundaryCheck) (s2 : AtEdgeCheck) :
  outcome (until_edge_check L args s1) = inr s2 ->
  (exists p, outcome (find_edges L (ec_slope s2) p) = inr (ec_edges s2)) /\
  In (DetectedEdges (length (ec_edges s2)))
    (stderr_lines (trace (until_edge_check L args s1))).
Proof.
  unfold until_edge_check. intro H.
  apply bind_success in H.
  destruct H as ([[start stop] trimmed] & _ & H & T1). rewrite T1.
  apply bind_success in H.
  destruct H as ([u upsampled] & _ & H & T2). rewrite T2.
  apply bind_success in H.
  destruct H as (edges & Hedges & H & T3). rewrite T3.
  injection H as <-. cbn [ec_slope ec_edges].
  destruct (detect_edges_count _ _ _ _ _ Hedges) as (Hfound & Hin).
  split; [assumption |].
  rewrite !stderr_lines_app, !in_app_iff. right. right. left. exact Hin.
Qed.

(** A run that ends normally writes its table once, after every
    diagnostic, and the table is not empty: debug artifacts apart, its trace
    is its diagnostics followed by the one table, and the number of edges
    it reported on [sys.stderr] is the number of rows. *)
Theorem successful_run_writes_one_table (L : Library) (args : Args)
    (spec : Spec) (recording : Recording) :
  let run := analyze_recording L args spec recording in
  outcome run = inr tt ->
  exists rows,
    rows <> [] /\
    observable (trace run)
    = map Stderr (stderr_lines (trace run)) ++ [Stdout rows] /\
    stdout_rows (trace run) = rows /\
    In (DetectedEdges (length rows)) (stderr_lines (trace run)).
Proof.
  intros run Hok.
  destruct (run_success_inv L args spec recording Hok)
    as (s1 & s2 & H1 & Hmany & H2 & Hne & Hout).
  destruct (output_stage_success args s2 Hne Hout)
    as (Hrate & final & Hres & Hindex).
  destruct (until_edge_check_inv L args s1 s2 H2) as (_ & Hcount).
  assert (Hlen : length final = length (ec_edges s2)).
  { apply (f_equal (@length _)) in Hindex. unfold pd.index in Hindex.
    now rewrite !length_map in Hindex. }
  set (rows := design_table final (upsampled_start_index (ec_upsampled s2))
                 (upsampled_sample_rate (ec_upsampled s2))).
  assert (Hstage : observable (trace (output_stage args s2))
                   = map Stderr (stderr_lines (trace (output_stage args s2)))
                       ++ [Stdout rows]
                   /\ stdout_rows (trace (output_stage args s2)) = rows).
  { unfold output_stage.
    rewrite (bind_run _ _ tt (maybe_write_wavfile_plain _ _ _ _)).
    rewrite (bind_run _ _ final Hres).
    rewrite (write_output_run _ _ _ Hrate).
    cbn [trace fst]. fold rows.
    rewrite !observable_app, !stderr_lines_app, !stdout_rows_app, !map_app.
    rewrite (diagnostics_only_maybe_write_wavfile _ _ _ _ _).
    rewrite (diagnostics_only_resolve_polarity (ec_edges s2)).
    rewrite maybe_write_wavfile_rows, (resolve_polarity_quiet (ec_edges s2)).
    cbn [observable stderr_lines stdout_rows map app].
    rewrite !app_nil_r. split; [now rewrite <- app_assoc | reflexivity]. }
  destruct Hstage as (Hobs & Hrows).
  exists rows. split.
  { unfold rows, design_table. destruct final; [| discriminate].
    simpl in Hlen. destruct (ec_edges s2); [contradiction | discriminate]. }
  unfold run. rewrite (checks_pass _ _ _ _ s1 s2 H1 Hmany H2 Hne).
  cbn [trace fst].
  rewrite !observable_app, !stderr_lines_app, !stdout_rows_app, !map_app.
  rewrite (diagnostics_only_until_boundary_check L args spec recording).
  rewrite (diagnostics_only_until_edge_check L args s1).
  rewrite Hobs, Hrows.
  rewrite (quiet_until_boundary_check L args spec recording).
  rewrite (quiet_until_edge_check L args s1).
  split; [now rewrite !app_assoc |]. split; [reflexivity |].
  assert (E : length rows = length (ec_edges s2)).
  { unfold rows, design_table. now rewrite length_map. }
  rewrite E, !in_app_iff. right. left. exact Hcount.
Qed.

Lemma successful_run_writes_one_table_witness :
  let run :=
    analyze_recording Example.library Example.args Example.spec
      Example.recording in
  exists rows,
    rows <> [] /\
    observable (trace run)
    = map Stderr (stderr_lines (trace run)) ++ [Stdout rows] /\
    stdout_rows (trace run) = rows /\
    In (DetectedEdges (length rows)) (stderr_lines (trace run)).
Proof.
  apply (successful_run_writes_one_table Example.library Example.args
           Example.spec Example.recording).
  reflexivity.
Defined.

(** ** The timestamps and the test signal *)

(** The table of a run that passed both checks. *)
Lemma run_rows (L : Library) (args : Args) (spec : Spec)
    (recording : Recording) (s1 : AtBoundaryCheck) (s2 : AtEdgeCheck) :
  outcome (until_boundary_check L args spec recording) = inr s1 ->
  2 <= length (boundary_candidate_indexes s1) ->
  outcome (until_edge_check L args s1) = inr s2 ->
  ec_edges s2 <> [] ->
  ~ (upsampled_sample_rate (ec_upsampled s2) == 0)%Q ->
  exists final,
    outcome (resolve_polarity (ec_edges s2)) = inr final /\
    pd.index final = pd.index (ec_edges s2) /\
    stdout_rows (trace (analyze_recording L args spec recording))
    = design_table final (upsampled_start_index (ec_upsampled s2))
        (upsampled_sample_rate (ec_upsampled s2)).
Proof.
  intros H1 Hmany H2 Hne Hrate.
  destruct (resolve_polarity_cases (ec_edges s2) Hne)
    as (final & Hres & Hcase).
  exists final. split; [assumption |]. split.
  { destruct Hcase as [-> | ->]; [| rewrite invert_index]; reflexivity. }
  destruct (output_stage_run args s2 final Hres Hrate) as (_ & Hrows & _).
  rewrite (checks_pass _ _ _ _ s1 s2 H1 Hmany H2 Hne).
  cbn [trace fst]. rewrite !stdout_rows_app, Hrows.
  rewrite (quiet_until_boundary_check L args spec recording).
  now rewrite (quiet_until_edge_check L args s1).
Qed.

(** Every timestamp falls strictly inside the upsampled test signal: later
    than the instant of its first sample and earlier than the instant of
    its last one. *)
Theorem timestamps_inside_test_signal (L : Library) (args : Args)
    (spec : Spec) (recording : Recording)
    (s1 : AtBoundaryCheck) (s2 : AtEdgeCheck) :
  outcome (until_boundary_check L args spec recording) = inr s1 ->
  2 <= length (boundary_candidate_indexes s1) ->
  outcome (until_edge_check L args s1) = inr s2 ->
  ec_edges s2 <> [] ->
  (0 < upsampled_sample_rate (ec_upsampled s2))%Q ->
  forall timestamp frame,
    In (timestamp, frame)
      (stdout_rows (trace (analyze_recording L args spec recording))) ->
    ((np.of_nat 0 + upsampled_start_index (ec_upsampled s2))
     / upsampled_sample_rate (ec_upsampled s2) < timestamp)%Q /\
    (timestamp
     < (np.of_nat (length (ec_slope s2) - 1)
        + upsampled_start_index (ec_upsampled s2))
       / upsampled_sample_rate (ec_upsampled s2))%Q.
Proof.
  intros H1 Hmany H2 Hne Hrate timestamp frame Hin.
  destruct (run_rows L args spec recording s1 s2 H1 Hmany H2 Hne
              (Qpos_nonzero _ Hrate)) as (final & _ & Hindex & Hrows).
  rewrite Hrows in Hin. unfold design_table in Hin.
  apply in_map_iff in Hin. destruct Hin as ([offset b] & [= <- <-] & Hin).
  cbn [fst].
  assert (Hkey : In offset (pd.index (ec_edges s2))).
  { rewrite <- Hindex. unfold pd.index.
    now apply (in_map fst) in Hin. }
  apply (proj1 (index_In _ _)) in Hkey. destruct Hkey as (b' & Hedge).
  destruct (until_edge_check_inv L args s1 s2 H2) as ((p & Hfound) & _).
  destruct (edge_offset_bounds L _ p _ Hfound offset b' Hedge) as (Hlo & Hhi).
  split; apply timestamp_increasing; try assumption; lia.
Qed.

Lemma timestamps_inside_test_signal_witness :
  ((np.of_nat 0 + np.of_nat 0 * 2) / (4 / 2 * 2) < 24 # 8)%Q /\
  (24 # 8 < (np.of_nat (15 - 1) + np.of_nat 0 * 2) / (4 / 2 * 2))%Q.
Proof.
  apply (timestamps_inside_test_signal Example.library Example.args
           Example.spec Example.recording
           {| bc_sample_rate := 4 / 2;
              bc_slope := Example.slope;
              bc_reference_size := 3;
              boundary_candidate_indexes := [0; 1; 3; 5; 7; 9; 11; 12] |}
           {| ec_upsampled :=
                {| upsampling_ratio := 2;
                   upsampled_sample_rate := 4 / 2 * 2;
                   upsampled_start_index := np.of_nat 0 * 2;
                   upsampled_end_index := np.of_nat 15 * 2 |};
              ec_slope := Example.slope;
              ec_edges :=
                [(2, false); (4, true); (6, false); (8, true); (10, false);
                 (12, true)] |}
           eq_refl ltac:(simpl; lia) eq_refl ltac:(discriminate) eq_refl
           (24 # 8)%Q false).
  vm_compute. tauto.
Defined.

(** ** The edge markers *)

Lemma find_row (s : pd.Series nat) (i : nat) (b : bool) :
  NoDup (pd.index s) -> In (i, b) s ->
  find (fun e => fst e =? i) s = Some (i, b).
Proof.
  induction s as [| a s IH]; intros Hnd Hin; [contradiction |].
  simpl in Hnd. inversion Hnd as [| k l Hnot Hnd']; subst.
  simpl. destruct (Nat.eqb_spec (fst a) i) as [E | E].
  - destruct Hin as [-> | Hin]; [reflexivity |].
    exfalso. apply Hnot. rewrite E.
    apply (proj2 (index_In s i)). now exists b.
  - destruct Hin as [-> | Hin]; [now contradiction E |]. now apply IH.
Qed.

Lemma find_no_row (s : pd.Series nat) (i : nat) :
  ~ In i (pd.index s) -> find (fun e => fst e =? i) s = None.
Proof.
  induction s as [| a s IH]; intro Hnot; [reflexivity |].
  simpl. destruct (Nat.eqb_spec (fst a) i) as [E | E].
  - exfalso. apply Hnot. now left.
  - apply IH. intro H. apply Hnot. now right.
Qed.

Lemma edge_markers_nth (size : nat) (edges : pd.Series nat) (i : nat) :
  i < size ->
  nth i (edge_markers size edges) 0%Q
  = match find (fun e => fst e =? i) edges with
    | Some e => if snd e then 1%Q else (-1)%Q
    | None => 0%Q
    end.
Proof.
  intro Hi. unfold edge_markers.
  set (f := fun i : nat => match find (fun e => fst e =? i) edges with
                           | Some e => if snd e then 1%Q else (-1)%Q
                           | None => 0%Q
                           end).
  rewrite (nth_indep _ 0%Q (f 0)) by now rewrite length_map, length_seq.
  rewrite (map_nth f), seq_nth by assumption. reflexivity.
Qed.

(** The edge-marker artifact has one sample per sample of the slope: [1] at
    the offset of every rising edge, [-1] at the offset of every falling
    edge, [0] everywhere else.  No edge is lost: every offset is inside the
    array. *)
Theorem edge_markers_mark_every_edge (L : Library) (slope : list Q)
    (p : FindEdgeParams) (edges : pd.Series nat) :
  outcome (find_edges L slope p) = inr edges ->
  let markers := edge_markers (length slope) edges in
  length markers = length slope /\
  (forall offset, In (offset, true) edges ->
                  offset < length slope /\ nth offset markers 0%Q = 1%Q) /\
  (forall offset, In (offset, false) edges ->
                  offset < length slope
                  /\ nth offset markers 0%Q = (-1)%Q) /\
  (forall i, i < length slope -> ~ In i (pd.index edges) ->
             nth i markers 0%Q = 0%Q).
Proof.
  intros Hout markers.
  pose proof (sorted_NoDup _ (find_edges_sorted _ _ _ _ Hout)) as Hnd.
  split; [unfold markers, edge_markers; now rewrite length_map, length_seq |].
  split; [| split].
  - intros offset Hin.
    destruct (edge_offset_bounds L slope p edges Hout _ _ Hin) as (_ & Hhi).
    split; [lia |]. unfold markers.
    rewrite edge_markers_nth by lia. now rewrite (find_row _ _ _ Hnd Hin).
  - intros offset Hin.
    destruct (edge_offset_bounds L slope p edges Hout _ _ Hin) as (_ & Hhi).
    split; [lia |]. unfold markers.
    rewrite edge_markers_nth by lia. now rewrite (find_row _ _ _ Hnd Hin).
  - intros i Hi Hnot. unfold markers.
    rewrite edge_markers_nth by assumption. now rewrite find_no_row.
Qed.

Lemma edge_markers_mark_every_edge_witness :
  let edges :=
    [(2, false); (4, true); (6, false); (8, true); (10, false); (12, true)] in
  let markers := edge_markers (length Example.slope) edges in
  length markers = length Example.slope /\
  (forall offset, In (offset, true) edges ->
                  offset < length Example.slope
                  /\ nth offset markers 0%Q = 1%Q) /\
  (forall offset, In (offset, false) edges ->
                  offset < length Example.slope
                  /\ nth offset markers 0%Q = (-1)%Q) /\
  (forall i, i < length Example.slope -> ~ In i (pd.index edges) ->
             nth i markers 0%Q = 0%Q).
Proof.
  apply (edge_markers_mark_every_edge Example.library Example.slope
           (find_edge_params Example.args 4 (-2) 2)).
  reflexivity.
Defined.

(** ** The settings *)

(** The kernel of the downsampler.  For a whole ratio [M >= 1], which is
    what the downsampler computes, the low-pass filter is asked for
    [40 * M + 1] taps, an odd number, and a cutoff of [1 / M], which lies in
    the interval from 0 (excluded) to 1 (included) and is 1 exactly when the
    ratio is 1; the filter is then convolved with the difference kernel
    [1, -1]. *)
Theorem derivative_kernel_taps (L : Library) (M : Z) :
  (1 <= M)%Z ->
  generate_downsampling_derivative_kernel L (inject_Z M)
  = bind (call (firwin L (40 * M + 1) (1 / inject_Z M)%Q))
      (fun taps => call (convolve L taps [1; -1]%Q)) /\
  Z.odd (40 * M + 1) = true /\
  (0 < 1 / inject_Z M)%Q /\ (1 / inject_Z M <= 1)%Q /\
  ((1 / inject_Z M == 1)%Q <-> M = 1%Z).
Proof.
  intro HM.
  assert (Hq : (1 <= inject_Z M)%Q)
    by (change (inject_Z 1 <= inject_Z M)%Q; now rewrite <- Zle_Qle).
  assert (Hq0 : (0 < inject_Z M)%Q) by lra.
  split; [| split; [| split; [| split]]].
  - unfold generate_downsampling_derivative_kernel.
    rewrite (true_divide_defined _ _ (Qpos_nonzero _ Hq0)), bind_ret.
    change (2 * 10 * inject_Z M)%Q with (inject_Z (20 * M)).
    rewrite int_of_Z.
    replace (2 * (20 * M) + 1)%Z with (40 * M + 1)%Z by lia.
    reflexivity.
  - replace (40 * M + 1)%Z with (1 + 2 * (20 * M))%Z by lia.
    now rewrite Z.odd_add_mul_2.
  - apply Qlt_shift_div_l; [assumption |]. rewrite Qmult_0_l. reflexivity.
  - apply Qle_shift_div_r; [assumption |]. lra.
  - split.
    + intro E.
      assert (E' : (inject_Z M == 1)%Q).
      { rewrite <- (Qmult_div_r 1 (inject_Z M) (Qpos_nonzero _ Hq0)), E.
        ring. }
      unfold Qeq in E'. cbn [Qnum Qden inject_Z] in E'. lia.
    + intros ->. reflexivity.
Qed.

Lemma derivative_kernel_taps_witness :
  generate_downsampling_derivative_kernel Example.library (inject_Z 24)
  = bind (call (firwin Example.library (40 * 24 + 1) (1 / inject_Z 24)%Q))
      (fun taps => call (convolve Example.library taps [1; -1]%Q)) /\
  Z.odd (40 * 24 + 1) = true /\
  (0 < 1 / inject_Z 24)%Q /\ (1 / inject_Z 24 <= 1)%Q /\
  ((1 / inject_Z 24 == 1)%Q <-> 24%Z = 1%Z).
Proof.
  apply (derivative_kernel_taps Example.library 24). lia.
Defined.

(** A minimum edge separation of zero is fatal: once the inputs are
    loaded the run ends in a [ZeroDivisionError], with the two loading
    messages and nothing else written. *)
Theorem zero_edge_separation_is_fatal (L : Library) (args : Args)
    (spec : Spec) (recording : Recording) :
  outcome (load_inputs L args spec recording) = inr tt ->
  (min_edge_separation_seconds args == 0)%Q ->
  analyze_recording L args spec recording
  = (trace (load_inputs L args spec recording), inl ZeroDivisionError).
Proof.
  intros Hload Hzero.
  assert (Hdown : downsample L args recording = ([], inl ZeroDivisionError)).
  { unfold downsample, downsampling, np.py_div at 1.
    now rewrite (Qeq_eq_bool _ _ Hzero). }
  unfold analyze_recording, until_boundary_check.
  rewrite !bind_assoc.
  rewrite (bind_run _ _ tt Hload), Hdown.
  cbn [bind trace outcome fst snd]. now rewrite app_nil_r.
Qed.

Lemma zero_edge_separation_is_fatal_witness :
  analyze_recording Example.library
    {| min_edge_separation_seconds := 0;
       boundaries_signal_frames := 3;
       boundaries_score_threshold_ratio := 1 # 2;
       timestamp_resolution_seconds := 1 # 4;
       minimum_negative_slope_peak_height_ratio := 3 # 10;
       minimum_positive_slope_peak_height_ratio := 3 # 10;
       minimum_negative_slope_peak_prominence_ratio := 3 # 10;
       minimum_positive_slope_peak_prominence_ratio := 3 # 10;
       output_file := fun _ => false |}
    Example.spec Example.recording
  = ([Stderr (LoadedSpec 9 60 (9 # 60));
      Stderr (LoadedRecording 15 4 (15 # 4))],
     inl ZeroDivisionError).
Proof.
  apply (zero_edge_separation_is_fatal Example.library
           {| min_edge_separation_seconds := 0;
              boundaries_signal_frames := 3;
              boundaries_score_threshold_ratio := 1 # 2;
              timestamp_resolution_seconds := 1 # 4;
              minimum_negative_slope_peak_height_ratio := 3 # 10;
              minimum_positive_slope_peak_height_ratio := 3 # 10;
              minimum_negative_slope_peak_prominence_ratio := 3 # 10;
              minimum_positive_slope_peak_prominence_ratio := 3 # 10;
              output_file := fun _ => false |}
           Example.spec Example.recording);
    reflexivity.
Defined.

(** The default settings and a slowly sampled recording.  With the
    default minimum edge separation of 0.0005 s, a recording sampled at
    2000 Hz or more but below 4000 Hz gets a downsampling ratio of 1, and
    the low-pass filter is asked for 41 taps at a cutoff of 1, the Nyquist
    frequency itself.  When [firwin] rejects that request, as scipy's
    does, the run ends there with that exception: the loading messages and
    the downsampling message are all it has written. *)
Theorem default_settings_fix_the_cutoff_at_nyquist (L : Library)
    (spec : Spec) (recording : Recording) (e : Exception) :
  (2000 <= wav_sample_rate recording < 4000)%Z ->
  outcome (load_inputs L default_args spec recording) = inr tt ->
  firwin L 41 1 = inl e ->
  let R := inject_Z (wav_sample_rate recording) in
  downsampling default_args R = ret (1%Q, (R / 1)%Q) /\
  generate_downsampling_derivative_kernel L 1 = ([], inl e) /\
  analyze_recording L default_args spec recording
  = (trace (load_inputs L default_args spec recording)
     ++ [Stderr (Downsampling 1 (R / 1))],
     inl e).
Proof.
  intros HR Hload Hfirwin R.
  assert (Hfloor : Qfloor (R / (1 / min_edge_separation_seconds
                                     default_args))
                   = 1%Z).
  { unfold R. cbn [default_args min_edge_separation_seconds].
    unfold Qfloor, Qdiv, Qmult, Qinv, inject_Z.
    cbn [Qnum Qden Pos.mul Z.mul].
    Z.div_mod_to_equations. lia. }
  assert (Hrun : downsampling default_args R = ret (1%Q, (R / 1)%Q)).
  { unfold downsampling.
    rewrite py_div_defined by (intro E; discriminate E). rewrite bind_ret.
    rewrite py_div_defined by (intro E; discriminate E). rewrite bind_ret.
    unfold np.floor. rewrite Hfloor.
    rewrite true_divide_defined by (intro E; discriminate E).
    now rewrite bind_ret. }
  assert (Hkernel : generate_downsampling_derivative_kernel L 1
                    = ([], inl e)).
  { unfold generate_downsampling_derivative_kernel.
    rewrite true_divide_defined by (intro E; discriminate E).
    rewrite bind_ret.
    change (firwin L (2 * np.int (2 * 10 * 1)%Q + 1)%Z (1 / 1)%Q)
      with (firwin L 41 1).
    rewrite Hfirwin. reflexivity. }
  split; [exact Hrun |]. split; [exact Hkernel |].
  assert (Hdown : downsample L default_args recording
                  = ([Stderr (Downsampling 1 (R / 1))], inl e)).
  { unfold downsample. fold R. rewrite Hrun, bind_ret.
    rewrite Hkernel. reflexivity. }
  unfold analyze_recording, until_boundary_check.
  rewrite !bind_assoc.
  rewrite (bind_run _ _ tt Hload), Hdown. reflexivity.
Qed.

Lemma default_settings_fix_the_cutoff_at_nyquist_witness :
  let R := inject_Z 3000 in
  downsampling default_args R = ret (1%Q, (R / 1)%Q) /\
  generate_downsampling_derivative_kernel Example.checked_library 1
  = ([], inl ValueError) /\
  analyze_recording Example.checked_library default_args Example.spec
    Example.slow_recording
  = (trace (load_inputs Example.checked_library default_args Example.spec
              Example.slow_recording)
     ++ [Stderr (Downsampling 1 (R / 1))],
     inl ValueError).
Proof.
  apply (default_settings_fix_the_cutoff_at_nyquist Example.checked_library
           Example.spec Example.slow_recording ValueError);
    [cbn; lia | reflexivity | reflexivity].
Defined.
